(** * The ConcentratorD backend of the gateway bridge

    A shallow embedding of [internal/backend/concentratord/concentratord.go]
    and the properties of its downlink, uplink, identifier and event-loop
    paths.

    Conventions.
    - Go's [uint32] is a [Z] in [0, 2^32) with the wrap-around written out.
    - A byte slice is a [list byte]; the nil slice and the empty slice are both
      [[]] (the source only ever takes their [len]).
    - An [error] is its message; the nil error is [None].
    - The only object this file ever writes through a pointer that its caller
      shares is a [gw.LoRaModulationInfo] of a downlink frame; those objects
      live in a heap indexed by locations.  Objects that are only read are
      embedded by value, a nil pointer being [None].
    - What the two sockets do (dial results, replies, received messages) is an
      input of the function that uses the socket. *)

From Stdlib Require Import ZArith List String Strings.Byte Lia.
From stdpp Require Import base option list gmap.

Local Open Scope Z_scope.

(** ** Go primitives *)

Definition bytes := list byte.
Definition error := string.
Bind Scope string_scope with error.

Inductive result (A : Type) : Type :=
| Ok (a : A)
| Err (e : error).
Arguments Ok {A} a.
Arguments Err {A} e.

(** [errors.New] and [errors.Wrap] of github.com/pkg/errors. *)
Definition errors_New (msg : string) : error := msg.
Definition errors_Wrap (e : error) (msg : string) : error :=
  (msg ++ ": " ++ e)%string.

Definition uint32_modulus : Z := 2 ^ 32.
Definition is_uint32 (z : Z) : Prop := 0 <= z < uint32_modulus.

(** [a * b] and [a / b] on [uint32] operands. *)
Definition uint32_mul (a b : Z) : Z := (a * b) mod uint32_modulus.
Definition uint32_div (a b : Z) : Z := a / b.

(** [var dst [n]byte; copy(dst[:], src)]: the first [n] bytes of [src], the
    rest of the zeroed array untouched. *)
Definition copy_array (n : nat) (src : bytes) : bytes :=
  take n src ++ replicate (n - length src)%nat x00.

(** [[]byte(s)] and [string(b)]. *)
Definition bytes_of_string (s : string) : bytes := list_byte_of_string s.
Definition string_of_bytes (b : bytes) : string := string_of_list_byte b.

(** [uuid.UUID] is [[16]byte], [lorawan.EUI64] is [[8]byte]. *)
Definition UUID_len : nat := 16.
Definition EUI64_len : nat := 8.

(** ** Messages of package [gw]

    Fields follow the generated Go structs ([Bandwidth] is a [uint32]).
    Fields this backend neither reads nor writes and whose types are messages
    of their own (time stamps, location, signal quality as a float, the timing
    oneof) are left out. *)

Definition loc := positive.

Module LoRaModulationInfo.
Record t := mk {
  Bandwidth : Z;
  SpreadingFactor : Z;
  CodeRate : string;
  PolarizationInversion : bool
}.
(** The assignment [m.Bandwidth = v]. *)
Definition set_Bandwidth (v : Z) (m : t) : t :=
  mk v (SpreadingFactor m) (CodeRate m) (PolarizationInversion m).
End LoRaModulationInfo.

Module FSKModulationInfo.
Record t := mk { FrequencyDeviation : Z; Datarate : Z }.
End FSKModulationInfo.

(** The [CRCStatus] enum is an [int32]. *)
Definition CRCStatus := Z.
Definition CRCStatus_NO_CRC : CRCStatus := 0.
Definition CRCStatus_BAD_CRC : CRCStatus := 1.
Definition CRCStatus_CRC_OK : CRCStatus := 2.

Module DownlinkTXInfo.
(** The [modulation_info] oneof.  The LoRa case holds a pointer to a
    [LoRaModulationInfo] object of the heap (possibly nil). *)
Inductive isModulationInfo :=
| LoraModulationInfo (p : option loc)
| FskModulationInfo (p : option FSKModulationInfo.t).

Record t := mk {
  GatewayId : bytes;
  Frequency : Z;
  Power : Z;
  Modulation : Z;
  ModulationInfo : option isModulationInfo;
  Board : Z;
  Antenna : Z;
  Timing : Z;
  Context : bytes
}.

(** Generated getters; the receiver is a pointer and may be nil. *)
Definition GetModulationInfo (m : option t) : option isModulationInfo :=
  match m with
  | Some m => ModulationInfo m
  | None => None
  end.

Definition GetLoraModulationInfo (m : option t) : option loc :=
  match GetModulationInfo m with
  | Some (LoraModulationInfo x) => x
  | _ => None
  end.
End DownlinkTXInfo.

Module DownlinkFrame.
Record t := mk {
  PhyPayload : bytes;
  TxInfo : option DownlinkTXInfo.t;
  Token : Z;
  DownlinkId : bytes
}.
Definition GetTxInfo (m : t) : option DownlinkTXInfo.t := TxInfo m.
Definition GetDownlinkId (m : t) : bytes := DownlinkId m.
End DownlinkFrame.

Module DownlinkTXAck.
Record t := mk {
  GatewayId : bytes;
  Token : Z;
  Error : string;
  DownlinkId : bytes
}.
End DownlinkTXAck.

(** An uplink frame is built by [proto.Unmarshal] into a fresh local: every
    object it points to is new and reachable from that frame alone, so the
    whole frame is a value. *)
Module UplinkTXInfo.
Inductive isModulationInfo :=
| LoraModulationInfo (p : option LoRaModulationInfo.t)
| FskModulationInfo (p : option FSKModulationInfo.t).

Record t := mk {
  Frequency : Z;
  Modulation : Z;
  ModulationInfo : option isModulationInfo
}.

Definition GetModulationInfo (m : option t) : option isModulationInfo :=
  match m with
  | Some m => ModulationInfo m
  | None => None
  end.

Definition GetLoraModulationInfo (m : option t) : option LoRaModulationInfo.t :=
  match GetModulationInfo m with
  | Some (LoraModulationInfo x) => x
  | _ => None
  end.

(** [p.Bandwidth = v] for the pointer [p] that [GetLoraModulationInfo]
    returned: the write lands in the object the oneof points to. *)
Definition set_LoraBandwidth (v : Z) (m : t) : t :=
  match ModulationInfo m with
  | Some (LoraModulationInfo (Some x)) =>
      mk (Frequency m) (Modulation m)
         (Some (LoraModulationInfo (Some (LoRaModulationInfo.set_Bandwidth v x))))
  | _ => m
  end.
End UplinkTXInfo.

Module UplinkRXInfo.
Record t := mk {
  GatewayId : bytes;
  Rssi : Z;
  Channel : Z;
  RfChain : Z;
  Board : Z;
  Antenna : Z;
  Context : bytes;
  UplinkId : bytes;
  CrcStatus : CRCStatus
}.
Definition GetUplinkId (m : option t) : bytes :=
  match m with
  | Some m => UplinkId m
  | None => []
  end.
Definition GetCrcStatus (m : option t) : CRCStatus :=
  match m with
  | Some m => CrcStatus m
  | None => CRCStatus_NO_CRC
  end.
End UplinkRXInfo.

Module UplinkFrame.
Record t := mk {
  PhyPayload : bytes;
  TxInfo : option UplinkTXInfo.t;
  RxInfo : option UplinkRXInfo.t
}.
Definition GetTxInfo (m : t) : option UplinkTXInfo.t := TxInfo m.
Definition GetRxInfo (m : t) : option UplinkRXInfo.t := RxInfo m.
(** [p.Bandwidth = v] for [p := m.GetTxInfo().GetLoraModulationInfo()]. *)
Definition set_LoraBandwidth (v : Z) (m : t) : t :=
  match TxInfo m with
  | Some tx => mk (PhyPayload m) (Some (UplinkTXInfo.set_LoraBandwidth v tx)) (RxInfo m)
  | None => m
  end.
End UplinkFrame.

Module GatewayStats.
Record t := mk {
  GatewayId : bytes;
  Ip : string;
  ConfigVersion : string;
  RxPacketsReceived : Z;
  RxPacketsReceivedOk : Z;
  TxPacketsReceived : Z;
  TxPacketsEmitted : Z;
  StatsId : bytes
}.
Definition GetStatsId (m : t) : bytes := StatsId m.
End GatewayStats.

(** [events.Subscribe]. *)
Module Subscribe.
Record t := mk { Subscribe : bool; GatewayID : bytes }.
End Subscribe.

(** ** Sockets, channels and the log *)

(** A [zmq4.Msg] is its [Frames]. *)
Definition Msg := list bytes.

(** [Msg.Bytes]: the content of all the frames, one after the other. *)
Definition Msg_Bytes (m : Msg) : bytes := concat m.

(** What a [Recv] on a socket does: it fails, it returns a message, or the
    peer stays silent and the call never returns. *)
Inductive recv :=
| RecvError (e : error)
| RecvMsg (m : Msg)
| RecvBlocks.

(** What the command socket does during one [commandRequest]: the result of
    [SendMulti], then the result of [Recv]. *)
Record exchange := mkExchange {
  send_error : option error;
  reply : recv
}.

Record Socket := mkSocket {
  dialed : option string;
  subscriptions : list string;
  closed : bool;
  sent : list Msg            (* messages written to the socket, oldest first *)
}.

Definition new_socket : Socket := mkSocket None [] false [].
Definition socket_dial (url : string) (s : Socket) : Socket :=
  mkSocket (Some url) (subscriptions s) (closed s) (sent s).
Definition socket_subscribe (topic : string) (s : Socket) : Socket :=
  mkSocket (dialed s) (subscriptions s ++ [topic]) (closed s) (sent s).
Definition socket_close (s : Socket) : Socket :=
  mkSocket (dialed s) (subscriptions s) true (sent s).
Definition socket_write (m : Msg) (s : Socket) : Socket :=
  mkSocket (dialed s) (subscriptions s) (closed s) (sent s ++ [m]).

(** A buffered channel [make(chan A, cap)]: [buf] is what is waiting to be
    received, [hist] every value ever placed on the channel. *)
Record chan (A : Type) := mkChan {
  cap : nat;
  buf : list A;
  hist : list A
}.
Arguments mkChan {A} cap buf hist.
Arguments cap {A} c.
Arguments buf {A} c.
Arguments hist {A} c.

Definition make_chan {A : Type} (n : nat) : chan A := mkChan n [] [].

Definition chan_has_room {A : Type} (c : chan A) : bool :=
  (length (buf c) <? cap c)%nat.
Arguments chan_has_room : simpl never.

(** [c <- v] when it does not block. *)
Definition chan_put {A : Type} (v : A) (c : chan A) : chan A :=
  mkChan (cap c) (buf c ++ [v]) (hist c ++ [v]).

(** [<-c] by the consumer, when a value is waiting. *)
Definition chan_take {A : Type} (c : chan A) : option (A * chan A) :=
  match buf c with
  | [] => None
  | v :: rest => Some (v, mkChan (cap c) rest (hist c))
  end.

Inductive Level := DebugLevel | InfoLevel | ErrorLevel | FatalLevel.

Inductive FieldValue :=
| FBytes (b : bytes)
| FInt (z : Z)
| FString (s : string).

Record LogEntry := mkLogEntry {
  level : Level;
  err : option error;                       (* [WithError] *)
  fields : list (string * FieldValue);  (* [WithFields] *)
  message : string
}.

(** ** The backend *)

Record Backend := mkBackend {
  eventSock : Socket;
  commandSock : Socket;
  commandMux : bool;                         (* true while locked *)
  downlinkTXAckChan : chan DownlinkTXAck.t;
  uplinkFrameChan : chan UplinkFrame.t;
  gatewayStatsChan : chan GatewayStats.t;
  subscribeEventChan : chan Subscribe.t;
  disconnectChan : option (chan bytes);  (* never made: the nil channel *)
  crcCheck : bool
}.

Definition set_eventSock (v : Socket) (b : Backend) : Backend :=
  mkBackend v (commandSock b) (commandMux b) (downlinkTXAckChan b)
    (uplinkFrameChan b) (gatewayStatsChan b) (subscribeEventChan b)
    (disconnectChan b) (crcCheck b).
Definition set_commandSock (v : Socket) (b : Backend) : Backend :=
  mkBackend (eventSock b) v (commandMux b) (downlinkTXAckChan b)
    (uplinkFrameChan b) (gatewayStatsChan b) (subscribeEventChan b)
    (disconnectChan b) (crcCheck b).
Definition set_commandMux (v : bool) (b : Backend) : Backend :=
  mkBackend (eventSock b) (commandSock b) v (downlinkTXAckChan b)
    (uplinkFrameChan b) (gatewayStatsChan b) (subscribeEventChan b)
    (disconnectChan b) (crcCheck b).
Definition set_downlinkTXAckChan (v : chan DownlinkTXAck.t) (b : Backend) : Backend :=
  mkBackend (eventSock b) (commandSock b) (commandMux b) v
    (uplinkFrameChan b) (gatewayStatsChan b) (subscribeEventChan b)
    (disconnectChan b) (crcCheck b).
Definition set_uplinkFrameChan (v : chan UplinkFrame.t) (b : Backend) : Backend :=
  mkBackend (eventSock b) (commandSock b) (commandMux b) (downlinkTXAckChan b)
    v (gatewayStatsChan b) (subscribeEventChan b)
    (disconnectChan b) (crcCheck b).
Definition set_gatewayStatsChan (v : chan GatewayStats.t) (b : Backend) : Backend :=
  mkBackend (eventSock b) (commandSock b) (commandMux b) (downlinkTXAckChan b)
    (uplinkFrameChan b) v (subscribeEventChan b)
    (disconnectChan b) (crcCheck b).
Definition set_subscribeEventChan (v : chan Subscribe.t) (b : Backend) : Backend :=
  mkBackend (eventSock b) (commandSock b) (commandMux b) (downlinkTXAckChan b)
    (uplinkFrameChan b) (gatewayStatsChan b) v
    (disconnectChan b) (crcCheck b).

(** The process: the backend [b], the heap of [LoRaModulationInfo] objects
    that callers share with it, and the log written so far. *)
Record World := mkWorld {
  backend : Backend;
  heap : gmap loc LoRaModulationInfo.t;
  logs : list LogEntry
}.

Definition set_backend (v : Backend) (w : World) : World :=
  mkWorld v (heap w) (logs w).
Definition set_heap (v : gmap loc LoRaModulationInfo.t) (w : World) : World :=
  mkWorld (backend w) v (logs w).
Definition add_log (e : LogEntry) (w : World) : World :=
  mkWorld (backend w) (heap w) (logs w ++ [e]).

(** ** The monad of the backend's code

    A computation runs on the world and returns ([Ret]), ends the process
    ([Exit]: [log.Fatal] calls [os.Exit(1)]), or parks its goroutine for good
    unless somebody else acts ([Park]): on the mutex, in a [Recv] the peer
    never answers, or on a send to a full channel.  A parked send keeps the
    value it is about to place. *)

Inductive pending :=
| PendDownlinkTXAck (v : DownlinkTXAck.t)
| PendUplinkFrame (v : UplinkFrame.t)
| PendGatewayStats (v : GatewayStats.t)
| PendSubscribe (v : Subscribe.t).

Inductive blocked :=
| OnLock
| OnRecv
| OnSend (p : pending).

Inductive outcome (A : Type) : Type :=
| Ret (a : A) (w : World)
| Exit (w : World)
| Park (on : blocked) (w : World).
Arguments Ret {A} a w.
Arguments Exit {A} w.
Arguments Park {A} on w.

Definition world_of {A : Type} (o : outcome A) : World :=
  match o with
  | Ret _ w => w
  | Exit w => w
  | Park _ w => w
  end.

(** What the caller sees of an outcome: the value returned, if the call
    returns; whether the process has exited. *)
Definition returned {A : Type} (o : outcome A) : option A :=
  match o with
  | Ret a _ => Some a
  | _ => None
  end.

Definition exits {A : Type} (o : outcome A) : bool :=
  match o with
  | Exit _ => true
  | _ => false
  end.

Definition M (A : Type) : Type := World -> outcome A.

Definition ret {A : Type} (a : A) : M A := fun w => Ret a w.

Definition bind {A B : Type} (m : M A) (k : A -> M B) : M B :=
  fun w =>
    match m w with
    | Ret a w' => k a w'
    | Exit w' => Exit w'
    | Park on w' => Park on w'
    end.

Notation "'do' x <- m ; k" := (bind m (fun x => k))
  (at level 10, x name, m at level 100, k at level 200).
Notation "'do' ' ( x , y ) <- m ; k" := (bind m (fun '(x, y) => k))
  (at level 10, x name, y name, m at level 100, k at level 200).
Notation "m ;; k" := (bind m (fun _ => k))
  (at level 100, k at level 200, right associativity).

Definition get_backend : M Backend := fun w => Ret (backend w) w.
Definition modify_backend (f : Backend -> Backend) : M unit :=
  fun w => Ret tt (set_backend (f (backend w)) w).
Definition get_heap : M (gmap loc LoRaModulationInfo.t) :=
  fun w => Ret (heap w) w.
Definition modify_heap
    (f : gmap loc LoRaModulationInfo.t -> gmap loc LoRaModulationInfo.t) : M unit :=
  fun w => Ret tt (set_heap (f (heap w)) w).

(** logrus: an entry at a level below [Fatal] is written and the code goes
    on; [Fatal] writes the entry and exits the process.  [logs] records every
    entry handed to the logger, with its level: which of them logrus prints
    depends on the level the logger is set to (a [Debug] entry is not printed
    at the default level), and that setting is outside this package. *)
Definition log_write (l : Level) (e : option error)
    (fs : list (string * FieldValue)) (msg : string) : M unit :=
  fun w => Ret tt (add_log (mkLogEntry l e fs msg) w).
Definition log_Fatal {A : Type} (e : option error)
    (fs : list (string * FieldValue)) (msg : string) : M A :=
  fun w => Exit (add_log (mkLogEntry FatalLevel e fs msg) w).

(** [b.ch <- v] for each of the four channels. *)
Definition send_downlinkTXAckChan (v : DownlinkTXAck.t) : M unit :=
  fun w =>
    let c := downlinkTXAckChan (backend w) in
    if chan_has_room c
    then Ret tt (set_backend (set_downlinkTXAckChan (chan_put v c) (backend w)) w)
    else Park (OnSend (PendDownlinkTXAck v)) w.
Definition send_uplinkFrameChan (v : UplinkFrame.t) : M unit :=
  fun w =>
    let c := uplinkFrameChan (backend w) in
    if chan_has_room c
    then Ret tt (set_backend (set_uplinkFrameChan (chan_put v c) (backend w)) w)
    else Park (OnSend (PendUplinkFrame v)) w.
Definition send_gatewayStatsChan (v : GatewayStats.t) : M unit :=
  fun w =>
    let c := gatewayStatsChan (backend w) in
    if chan_has_room c
    then Ret tt (set_backend (set_gatewayStatsChan (chan_put v c) (backend w)) w)
    else Park (OnSend (PendGatewayStats v)) w.
Definition send_subscribeEventChan (v : Subscribe.t) : M unit :=
  fun w =>
    let c := subscribeEventChan (backend w) in
    if chan_has_room c
    then Ret tt (set_backend (set_subscribeEventChan (chan_put v c) (backend w)) w)
    else Park (OnSend (PendSubscribe v)) w.

(** [b.commandMux.Lock()] and [Unlock()]. *)
Definition commandMux_Lock : M unit :=
  fun w =>
    if commandMux (backend w)
    then Park OnLock w
    else Ret tt (set_backend (set_commandMux true (backend w)) w).
Definition commandMux_Unlock : M unit :=
  modify_backend (set_commandMux false).

(** [config.Config], the part under [Backend.Concentratord]. *)
Record Config := mkConfig {
  EventURL : string;
  CommandURL : string;
  CRCCheck : bool
}.

(** What the sockets do while [NewBackend] runs. *)
Record setup := mkSetup {
  dial_event : option error;
  set_option : option error;
  dial_command : option error;
  gateway_id_exchange : exchange
}.

Section Concentratord.

(** The protobuf codec.  [proto.Marshal] of a downlink frame reads the frame
    and, through the frame's pointer, its [LoRaModulationInfo] object. *)
Variable proto_Marshal :
  DownlinkFrame.t -> option LoRaModulationInfo.t -> result bytes.
Variable proto_Unmarshal_DownlinkTXAck : bytes -> result DownlinkTXAck.t.
Variable proto_Unmarshal_UplinkFrame : bytes -> result UplinkFrame.t.
Variable proto_Unmarshal_GatewayStats : bytes -> result GatewayStats.t.

(** [pl.GetTxInfo().GetLoraModulationInfo()] *)
Definition loRaModInfo_of (pl : DownlinkFrame.t) : option loc :=
  DownlinkTXInfo.GetLoraModulationInfo (DownlinkFrame.GetTxInfo pl).

(** The object that pointer leads to. *)
Definition lora_object (h : gmap loc LoRaModulationInfo.t)
    (pl : DownlinkFrame.t) : option LoRaModulationInfo.t :=
  match loRaModInfo_of pl with
  | Some l => h !! l
  | None => None
  end.

Definition commandRequest (x : exchange) (command : string)
    (v : option DownlinkFrame.t) : M (bytes * option error) :=
  commandMux_Lock ;;
  do r <-
    (do h <- get_heap;
     match (match v with
            | Some pl => proto_Marshal pl (lora_object h pl)
            | None => Ok []
            end) with
     | Err e => ret ([], Some (errors_Wrap e "protobuf marshal error"))
     | Ok bb =>
         let msg := [bytes_of_string command; bb] in
         match send_error x with
         | Some e => ret ([], Some (errors_Wrap e "send command request error"))
         | None =>
             modify_backend
               (fun b => set_commandSock (socket_write msg (commandSock b)) b) ;;
             match reply x with
             | RecvError e =>
                 ret ([], Some (errors_Wrap e "receive command request reply error"))
             | RecvMsg m => ret (Msg_Bytes m, None)
             | RecvBlocks => Park OnRecv
             end
         end
     end);
  commandMux_Unlock ;;       (* the deferred Unlock *)
  ret r.

(** For the statements below: the bytes [commandRequest] gets for its
    argument, and the world once a message is written to the command
    socket. *)
Definition encoded (h : gmap loc LoRaModulationInfo.t)
    (v : option DownlinkFrame.t) : result bytes :=
  match v with
  | Some pl => proto_Marshal pl (lora_object h pl)
  | None => Ok []
  end.

Definition wrote (msg : Msg) (w : World) : World :=
  set_backend (set_commandSock (socket_write msg (commandSock (backend w))) (backend w)) w.

Definition getGatewayID (x : exchange) : M (bytes * option error) :=
  let gatewayID := copy_array EUI64_len [] in
  do '(bb, err) <- commandRequest x "gateway_id" None;
  match err with
  | Some e => ret (gatewayID, Some (errors_Wrap e "request gateway id error"))
  | None => ret (copy_array EUI64_len bb, None)
  end.

(** [NewBackend] returns [(&b, nil)] or [(nil, err)]: here [None] when the
    backend of the world is the one returned, [Some err] when none is. *)
Definition NewBackend (conf : Config) (io : setup) : M (option error) :=
  log_write InfoLevel None
    [("event_url"%string, FString (EventURL conf));
     ("command_url"%string, FString (CommandURL conf))]
    "backend/concentratord: setting up backend" ;;
  modify_backend (fun _ =>
    mkBackend new_socket new_socket false
      (make_chan 1) (make_chan 1) (make_chan 1) (make_chan 1)
      None (CRCCheck conf)) ;;
  match dial_event io with
  | Some e => ret (Some (errors_Wrap e "dial event api url error"))
  | None =>
  modify_backend (fun b => set_eventSock (socket_dial (EventURL conf) (eventSock b)) b) ;;
  match set_option io with
  | Some e => ret (Some (errors_Wrap e "set event option error"))
  | None =>
  modify_backend (fun b => set_eventSock (socket_subscribe "" (eventSock b)) b) ;;
  match dial_command io with
  | Some e => ret (Some (errors_Wrap e "dial command api url error"))
  | None =>
  modify_backend (fun b => set_commandSock (socket_dial (CommandURL conf) (commandSock b)) b) ;;
  do '(gatewayID, err) <- getGatewayID (gateway_id_exchange io);
  match err with
  | Some e => ret (Some (errors_Wrap e "get gateway id error"))
  | None =>
  send_subscribeEventChan (Subscribe.mk true gatewayID) ;;
  (* go b.eventLoop(): the loop runs from here on, see [eventLoop] *)
  ret None
  end end end end.

(** For the statements below: the world in which [NewBackend] calls
    [getGatewayID], all three socket calls having succeeded. *)
Definition at_identifier_query (conf : Config) (w : World) : World :=
  mkWorld
    (mkBackend
       (socket_subscribe "" (socket_dial (EventURL conf) new_socket))
       (socket_dial (CommandURL conf) new_socket) false
       (make_chan 1) (make_chan 1) (make_chan 1) (make_chan 1)
       None (CRCCheck conf))
    (heap w)
    (logs w ++
       [mkLogEntry InfoLevel None
          [("event_url"%string, FString (EventURL conf));
           ("command_url"%string, FString (CommandURL conf))]
          "backend/concentratord: setting up backend"]).

Definition Close : M (option error) :=
  modify_backend (fun b => set_eventSock (socket_close (eventSock b)) b) ;;
  ret None.

Definition GetDownlinkTXAckChan : M (chan DownlinkTXAck.t) :=
  do b <- get_backend; ret (downlinkTXAckChan b).
Definition GetGatewayStatsChan : M (chan GatewayStats.t) :=
  do b <- get_backend; ret (gatewayStatsChan b).
Definition GetUplinkFrameChan : M (chan UplinkFrame.t) :=
  do b <- get_backend; ret (uplinkFrameChan b).
Definition GetSubscribeEventChan : M (chan Subscribe.t) :=
  do b <- get_backend; ret (subscribeEventChan b).

Definition SendDownlinkFrame (x : exchange) (pl : DownlinkFrame.t)
    : M (option error) :=
  let loRaModInfo := loRaModInfo_of pl in
  match loRaModInfo with
  | Some l =>
      modify_heap
        (alter (fun m => LoRaModulationInfo.set_Bandwidth
                           (uint32_mul (LoRaModulationInfo.Bandwidth m) 1000) m) l)
  | None => ret tt
  end ;;
  let downlinkID := copy_array UUID_len (DownlinkFrame.GetDownlinkId pl) in
  log_write InfoLevel None [("downlink_id"%string, FBytes downlinkID)]
    "backend/concentratord: forwarding downlink command" ;;
  do '(bb, err) <- commandRequest x "down" (Some pl);
  match err with
  | Some e => log_Fatal (Some e) [] "backend/concentratord: send downlink command error"
  | None => ret tt
  end ;;
  if (length bb =? 0)%nat
  then ret (Some (errors_New "no reply receieved, check concentratord logs for error"))
  else
    match proto_Unmarshal_DownlinkTXAck bb with
    | Err e => ret (Some (errors_Wrap e "protobuf unmarshal error"))
    | Ok ack =>
        send_downlinkTXAckChan ack ;;
        ret None
    end.

(** For the statements below: the heap once [SendDownlinkFrame] has rebased
    the bandwidth, and the world in which it then calls [commandRequest]. *)
Definition rebased (pl : DownlinkFrame.t) (h : gmap loc LoRaModulationInfo.t)
    : gmap loc LoRaModulationInfo.t :=
  match loRaModInfo_of pl with
  | Some l =>
      alter (fun m => LoRaModulationInfo.set_Bandwidth
                        (uint32_mul (LoRaModulationInfo.Bandwidth m) 1000) m) l h
  | None => h
  end.

Definition at_request (pl : DownlinkFrame.t) (w : World) : World :=
  add_log (mkLogEntry InfoLevel None
             [("downlink_id"%string,
               FBytes (copy_array UUID_len (DownlinkFrame.GetDownlinkId pl)))]
             "backend/concentratord: forwarding downlink command")
          (set_heap (rebased pl (heap w)) w).

(** The three operations that are not implemented. *)
Definition ApplyConfiguration : M (option error) := ret None.
Definition GetRawPacketForwarderEventChan : M (option (chan bytes)) := ret None.
Definition RawPacketForwarderCommand : M (option error) := ret None.

Definition handleUplinkFrame (bb : bytes) : M (option error) :=
  match proto_Unmarshal_UplinkFrame bb with
  | Err e => ret (Some (errors_Wrap e "protobuf unmarshal error"))
  | Ok pl =>
      let uplinkID :=
        copy_array UUID_len (UplinkRXInfo.GetUplinkId (UplinkFrame.GetRxInfo pl)) in
      let crc := UplinkRXInfo.GetCrcStatus (UplinkFrame.GetRxInfo pl) in
      do b <- get_backend;
      if crcCheck b && negb (crc =? CRCStatus_CRC_OK)
      then
        log_write DebugLevel None
          [("uplink_id"%string, FBytes uplinkID); ("crc_status"%string, FInt crc)]
          "backend/concentratord: ignoring uplink event, CRC is not valid" ;;
        ret None
      else
        let loRaModInfo :=
          UplinkTXInfo.GetLoraModulationInfo (UplinkFrame.GetTxInfo pl) in
        let pl :=
          match loRaModInfo with
          | Some m =>
              UplinkFrame.set_LoraBandwidth
                (uint32_div (LoRaModulationInfo.Bandwidth m) 1000) pl
          | None => pl
          end in
        log_write InfoLevel None [("uplink_id"%string, FBytes uplinkID)]
          "backend/concentratord: uplink event received" ;;
        send_uplinkFrameChan pl ;;
        ret None
  end.

(** For the statements below: the frame [handleUplinkFrame] places on the
    channel for a decoded frame [pl] that it does not drop. *)
Definition delivered (pl : UplinkFrame.t) : UplinkFrame.t :=
  match UplinkTXInfo.GetLoraModulationInfo (UplinkFrame.GetTxInfo pl) with
  | Some m =>
      UplinkFrame.set_LoraBandwidth
        (uint32_div (LoRaModulationInfo.Bandwidth m) 1000) pl
  | None => pl
  end.

Definition handleGatewayStats (bb : bytes) : M (option error) :=
  match proto_Unmarshal_GatewayStats bb with
  | Err e => ret (Some (errors_Wrap e "protobuf unmarshal error"))
  | Ok pl =>
      let statsID := copy_array UUID_len (GatewayStats.GetStatsId pl) in
      log_write InfoLevel None [("stats_id"%string, FBytes statsID)]
        "backend/concentratord: stats event received" ;;
      send_gatewayStatsChan pl ;;
      ret None
  end.

(** One turn of the [for] loop of [eventLoop], on what [b.eventSock.Recv()]
    does.  Every [continue] and the end of the body are [ret tt]. *)
Definition eventLoop_body (r : recv) : M unit :=
  match r with
  | RecvBlocks => Park OnRecv
  | RecvError e =>
      log_Fatal (Some e) [] "backend/concentratord: receive event message error"
  | RecvMsg [] => ret tt
  | RecvMsg [topic; payload] =>
      let event := string_of_bytes topic in
      do handled <-
        (if String.eqb event "up"
         then (do e <- handleUplinkFrame payload; ret (Some e))
         else if String.eqb event "stats"
         then (do e <- handleGatewayStats payload; ret (Some e))
         else
           log_write ErrorLevel None [("event"%string, FString event)]
             "backend/concentratord: unexpected event received" ;;
           ret None);
      match handled with
      | Some (Some e) =>
          log_write ErrorLevel (Some e) [("event"%string, FString event)]
            "backend/concentratord: handle event error"
      | _ => ret tt
      end
  | RecvMsg frames =>
      log_write ErrorLevel None
        [("frame_count"%string, FInt (Z.of_nat (length frames)))]
        "backend/concentratord: expected 2 frames in event message"
  end.

(** The loop, on the messages the event socket delivers one after the
    other; once they are used up the loop waits in [Recv]. *)
Fixpoint eventLoop (inputs : list recv) : M unit :=
  match inputs with
  | [] => Park OnRecv
  | r :: rest => eventLoop_body r ;; eventLoop rest
  end.

(** For the statements below: a message the loop has nothing to do with.
    It has no frame, or not exactly two, or a first frame that is neither
    ["up"] nor ["stats"], or one of these two with a payload that does not
    decode. *)
Inductive malformed : Msg -> Prop :=
| malformed_count frames :
    length frames <> 2%nat -> malformed frames
| malformed_topic topic payload :
    string_of_bytes topic <> "up"%string ->
    string_of_bytes topic <> "stats"%string ->
    malformed [topic; payload]
| malformed_up payload e :
    proto_Unmarshal_UplinkFrame payload = Err e ->
    malformed [bytes_of_string "up"; payload]
| malformed_stats payload e :
    proto_Unmarshal_GatewayStats payload = Err e ->
    malformed [bytes_of_string "stats"; payload].

End Concentratord.

(** ** The life of a backend

    Once [NewBackend] has returned a backend, the process goes on by the
    caller's calls on it, by turns of the background loop, and by the upstream
    application receiving from the four channels or writing its own
    [LoRaModulationInfo] objects.  A goroutine parked on a send places its
    value as soon as the channel has room (what follows every send in the
    source is a plain return).  Calls and turns are taken whole and in any
    order, also while a goroutine is parked: more orders than the process has,
    none fewer. *)

Inductive call :=
| CallSendDownlinkFrame (x : exchange) (pl : DownlinkFrame.t)
| CallClose
| CallApplyConfiguration
| CallRawPacketForwarderCommand
| CallGetDownlinkTXAckChan
| CallGetGatewayStatsChan
| CallGetUplinkFrameChan
| CallGetSubscribeEventChan
| CallGetRawPacketForwarderEventChan
| LoopTurn (r : recv).

Record Process := mkProcess {
  world : World;
  parked : list pending;
  exited : bool
}.

(** The send a parked goroutine completes. *)
Definition place (p : pending) (b : Backend) : option Backend :=
  match p with
  | PendDownlinkTXAck v =>
      if chan_has_room (downlinkTXAckChan b)
      then Some (set_downlinkTXAckChan (chan_put v (downlinkTXAckChan b)) b)
      else None
  | PendUplinkFrame v =>
      if chan_has_room (uplinkFrameChan b)
      then Some (set_uplinkFrameChan (chan_put v (uplinkFrameChan b)) b)
      else None
  | PendGatewayStats v =>
      if chan_has_room (gatewayStatsChan b)
      then Some (set_gatewayStatsChan (chan_put v (gatewayStatsChan b)) b)
      else None
  | PendSubscribe v =>
      if chan_has_room (subscribeEventChan b)
      then Some (set_subscribeEventChan (chan_put v (subscribeEventChan b)) b)
      else None
  end.

(** A channel made with capacity one that holds no more than that. *)
Definition chan_within_capacity {A : Type} (c : chan A) : Prop :=
  cap c = 1%nat /\ (length (buf c) <= cap c)%nat.

(** A channel after at most one send that found room. *)
Definition put_or_same {A : Type} (c c' : chan A) : Prop :=
  c' = c \/ exists v, chan_has_room c = true /\ c' = chan_put v c.

Definition within_capacity (b : Backend) : Prop :=
  chan_within_capacity (downlinkTXAckChan b) /\
  chan_within_capacity (uplinkFrameChan b) /\
  chan_within_capacity (gatewayStatsChan b) /\
  chan_within_capacity (subscribeEventChan b).

Section Life.

Variable proto_Marshal :
  DownlinkFrame.t -> option LoRaModulationInfo.t -> result bytes.
Variable proto_Unmarshal_DownlinkTXAck : bytes -> result DownlinkTXAck.t.
Variable proto_Unmarshal_UplinkFrame : bytes -> result UplinkFrame.t.
Variable proto_Unmarshal_GatewayStats : bytes -> result GatewayStats.t.

Definition run_call (c : call) : M unit :=
  match c with
  | CallSendDownlinkFrame x pl =>
      SendDownlinkFrame proto_Marshal proto_Unmarshal_DownlinkTXAck x pl ;; ret tt
  | CallClose => Close ;; ret tt
  | CallApplyConfiguration => ApplyConfiguration ;; ret tt
  | CallRawPacketForwarderCommand => RawPacketForwarderCommand ;; ret tt
  | CallGetDownlinkTXAckChan => GetDownlinkTXAckChan ;; ret tt
  | CallGetGatewayStatsChan => GetGatewayStatsChan ;; ret tt
  | CallGetUplinkFrameChan => GetUplinkFrameChan ;; ret tt
  | CallGetSubscribeEventChan => GetSubscribeEventChan ;; ret tt
  | CallGetRawPacketForwarderEventChan => GetRawPacketForwarderEventChan ;; ret tt
  | LoopTurn r =>
      eventLoop_body proto_Unmarshal_UplinkFrame proto_Unmarshal_GatewayStats r
  end.

Inductive step : Process -> Process -> Prop :=
| step_return c w ps w' :
    run_call c w = Ret tt w' ->
    step (mkProcess w ps false) (mkProcess w' ps false)
| step_exit c w ps w' :
    run_call c w = Exit w' ->
    step (mkProcess w ps false) (mkProcess w' ps true)
| step_park_send c w ps p w' :
    run_call c w = Park (OnSend p) w' ->
    step (mkProcess w ps false) (mkProcess w' (p :: ps) false)
| step_park_lock c w ps w' :
    run_call c w = Park OnLock w' ->
    step (mkProcess w ps false) (mkProcess w' ps false)
| step_park_recv c w ps w' :
    run_call c w = Park OnRecv w' ->
    step (mkProcess w ps false) (mkProcess w' ps false)
| step_place w ps1 p ps2 b' :
    place p (backend w) = Some b' ->
    step (mkProcess w (ps1 ++ p :: ps2) false)
         (mkProcess (set_backend b' w) (ps1 ++ ps2) false)
| step_take_downlinkTXAck w ps v c' :
    chan_take (downlinkTXAckChan (backend w)) = Some (v, c') ->
    step (mkProcess w ps false)
         (mkProcess (set_backend (set_downlinkTXAckChan c' (backend w)) w) ps false)
| step_take_uplinkFrame w ps v c' :
    chan_take (uplinkFrameChan (backend w)) = Some (v, c') ->
    step (mkProcess w ps false)
         (mkProcess (set_backend (set_uplinkFrameChan c' (backend w)) w) ps false)
| step_take_gatewayStats w ps v c' :
    chan_take (gatewayStatsChan (backend w)) = Some (v, c') ->
    step (mkProcess w ps false)
         (mkProcess (set_backend (set_gatewayStatsChan c' (backend w)) w) ps false)
| step_take_subscribeEvent w ps v c' :
    chan_take (subscribeEventChan (backend w)) = Some (v, c') ->
    step (mkProcess w ps false)
         (mkProcess (set_backend (set_subscribeEventChan c' (backend w)) w) ps false)
| step_caller_writes w ps h' :
    step (mkProcess w ps false) (mkProcess (set_heap h' w) ps false).

(** A process that starts with [NewBackend] on a world and then lives. *)
Definition lives (conf : Config) (io : setup) (w0 : World) (p : Process) : Prop :=
  exists w1,
    NewBackend proto_Marshal conf io w0 = Ret None w1 /\
    rtc step (mkProcess w1 [] false) p.

End Life.

(** ** A small codec and sample inputs

    A stand-in for the protobuf codec with which the functions above can be
    run: a downlink frame is written as its downlink id followed by the four
    big-endian bytes of its LoRa bandwidth; an uplink frame is read from one
    CRC status byte followed by four big-endian bandwidth bytes. *)

Module Sample.

Definition byte_of_Z (z : Z) : byte :=
  match Byte.of_N (Z.to_N (z mod 256)) with
  | Some b => b
  | None => x00
  end.
Definition Z_of_byte (b : byte) : Z := Z.of_N (Byte.to_N b).

Definition be32 (z : Z) : bytes :=
  [byte_of_Z (z / 16777216); byte_of_Z (z / 65536); byte_of_Z (z / 256); byte_of_Z z].
Definition of_be32 (b3 b2 b1 b0 : byte) : Z :=
  Z_of_byte b3 * 16777216 + Z_of_byte b2 * 65536 + Z_of_byte b1 * 256 + Z_of_byte b0.

Definition Marshal (pl : DownlinkFrame.t) (m : option LoRaModulationInfo.t)
    : result bytes :=
  Ok (DownlinkFrame.DownlinkId pl ++
      match m with
      | Some m => be32 (LoRaModulationInfo.Bandwidth m)
      | None => []
      end).

Definition Unmarshal_DownlinkTXAck (bb : bytes) : result DownlinkTXAck.t :=
  match bb with
  | [x00] => Ok (DownlinkTXAck.mk [] 0 "" [])
  | _ => Err "proto: cannot parse"
  end.

Definition Unmarshal_UplinkFrame (bb : bytes) : result UplinkFrame.t :=
  match bb with
  | [crc; b3; b2; b1; b0] =>
      Ok (UplinkFrame.mk []
            (Some (UplinkTXInfo.mk 868100000 0
                     (Some (UplinkTXInfo.LoraModulationInfo
                              (Some (LoRaModulationInfo.mk (of_be32 b3 b2 b1 b0)
                                       7 "4/5" false))))))
            (Some (UplinkRXInfo.mk [] 0 0 0 0 0 [] [] (Z_of_byte crc))))
  | _ => Err "proto: cannot parse"
  end.

Definition Unmarshal_GatewayStats (bb : bytes) : result GatewayStats.t :=
  match bb with
  | [] => Err "proto: cannot parse"
  | _ => Ok (GatewayStats.mk [] "" "" 0 0 0 0 bb)
  end.

(** A backend as [NewBackend] leaves it, with CRC checking as given. *)
Definition fresh_backend (crc : bool) : Backend :=
  mkBackend (socket_subscribe "" (socket_dial "ipc:///tmp/concentratord_event" new_socket))
    (socket_dial "ipc:///tmp/concentratord_command" new_socket) false
    (make_chan 1) (make_chan 1) (make_chan 1) (make_chan 1) None crc.

(** A caller's downlink frame whose TxInfo points to the LoRa object at
    location 1, and a heap holding that object with the given bandwidth. *)
Definition lora_frame : DownlinkFrame.t :=
  DownlinkFrame.mk [x40]
    (Some (DownlinkTXInfo.mk [] 868100000 14 0
             (Some (DownlinkTXInfo.LoraModulationInfo (Some 1%positive)))
             0 0 0 []))
    7 [x01; x02].

Definition lora_heap (bandwidth : Z) : gmap loc LoRaModulationInfo.t :=
  {[ 1%positive := LoRaModulationInfo.mk bandwidth 7 "4/5" true ]}.

Definition a_world (crc : bool) (bandwidth : Z) : World :=
  mkWorld (fresh_backend crc) (lora_heap bandwidth) [].

(** A downlink frame with FSK modulation, and a decoder that reads one CRC
    status byte into an uplink frame with FSK modulation. *)
Definition fsk_frame : DownlinkFrame.t :=
  DownlinkFrame.mk [x40]
    (Some (DownlinkTXInfo.mk [] 868100000 14 1
             (Some (DownlinkTXInfo.FskModulationInfo
                      (Some (FSKModulationInfo.mk 25000 50000))))
             0 0 0 []))
    8 [x03; x04].

Definition Unmarshal_UplinkFrame_fsk (bb : bytes) : result UplinkFrame.t :=
  match bb with
  | [crc] =>
      Ok (UplinkFrame.mk []
            (Some (UplinkTXInfo.mk 868100000 1
                     (Some (UplinkTXInfo.FskModulationInfo
                              (Some (FSKModulationInfo.mk 25000 50000))))))
            (Some (UplinkRXInfo.mk [] 0 0 0 0 0 [] [] (Z_of_byte crc))))
  | _ => Err "proto: cannot parse"
  end.

Definition handleUplinkFrame_fsk := handleUplinkFrame Unmarshal_UplinkFrame_fsk.

Definition conf : Config :=
  mkConfig "ipc:///tmp/concentratord_event" "ipc:///tmp/concentratord_command" false.

(** The command socket answers with the given frames. *)
Definition answers (m : Msg) : exchange := mkExchange None (RecvMsg m).

(** Both sockets dial, and the identifier query is answered with [m]. *)
Definition dials (m : Msg) : setup := mkSetup None None None (answers m).

Definition SendDownlinkFrame := SendDownlinkFrame Marshal Unmarshal_DownlinkTXAck.
Definition handleUplinkFrame := handleUplinkFrame Unmarshal_UplinkFrame.
Definition NewBackend := NewBackend Marshal.
Definition eventLoop := eventLoop Unmarshal_UplinkFrame Unmarshal_GatewayStats.
Definition eventLoop_body := eventLoop_body Unmarshal_UplinkFrame Unmarshal_GatewayStats.
Definition run_call :=
  run_call Marshal Unmarshal_DownlinkTXAck Unmarshal_UplinkFrame Unmarshal_GatewayStats.
Definition step :=
  step Marshal Unmarshal_DownlinkTXAck Unmarshal_UplinkFrame Unmarshal_GatewayStats.
Definition lives :=
  lives Marshal Unmarshal_DownlinkTXAck Unmarshal_UplinkFrame Unmarshal_GatewayStats.

End Sample.

(** ** Several goroutines in [commandRequest]

    [commandRequest] cut at its shared actions: taking [commandMux], encoding,
    [SendMulti], [Recv], and the deferred [Unlock].  Any number of goroutines
    run it on one backend and their actions interleave freely.  [wire] is
    what crosses the command socket, each message with the goroutine that
    wrote or read it. *)

Module Concurrent.

Definition tid := nat.

Inductive wire_event :=
| Request (t : tid) (m : Msg)
| Reply (t : tid) (m : Msg).

(** Where a goroutine stands in [commandRequest]. *)
Inductive pc :=
| AtLock (command : string) (v : option DownlinkFrame.t)
| AtMarshal (command : string) (v : option DownlinkFrame.t)
| AtSendMulti (msg : Msg)
| AtRecv
| AtUnlock (r : bytes * option error)
| Returned (r : bytes * option error).

(** Between [Lock] and [Unlock]. *)
Definition holds_lock (p : pc) : bool :=
  match p with
  | AtMarshal _ _ | AtSendMulti _ | AtRecv | AtUnlock _ => true
  | AtLock _ _ | Returned _ => false
  end.

Record Conf := mkConf {
  shared : World;
  threads : gmap tid pc;
  wire : list wire_event
}.

(** The exchanges on the wire follow one another: a reply is read by the
    goroutine that wrote the request just before it. *)
Inductive serial : list wire_event -> Prop :=
| serial_nil : serial []
| serial_request tr t m :
    serial tr -> serial (tr ++ [Request t m])
| serial_reply tr t m r :
    serial (tr ++ [Request t m]) -> serial (tr ++ [Request t m; Reply t r]).

(** Mutual exclusion over the whole of lock-to-unlock, and what it gives:
    the goroutine whose reply is awaited wrote the last request. *)
Definition exclusive (c : Conf) : Prop :=
  forall t1 t2 p1 p2,
    threads c !! t1 = Some p1 -> threads c !! t2 = Some p2 ->
    holds_lock p1 = true -> holds_lock p2 = true -> t1 = t2.

Definition unlocked_is_free (c : Conf) : Prop :=
  commandMux (backend (shared c)) = false ->
  forall t p, threads c !! t = Some p -> holds_lock p = false.

Definition awaited (c : Conf) : Prop :=
  forall t, threads c !! t = Some AtRecv ->
    exists tr m, wire c = tr ++ [Request t m].

Section Steps.

Variable proto_Marshal :
  DownlinkFrame.t -> option LoRaModulationInfo.t -> result bytes.

Inductive cstep : Conf -> Conf -> Prop :=
| cstep_call w ths tr t command v :
    (* a caller enters commandRequest(command, v) *)
    ths !! t = None ->
    cstep (mkConf w ths tr) (mkConf w (<[t := AtLock command v]> ths) tr)
| cstep_lock w ths tr t command v :
    ths !! t = Some (AtLock command v) ->
    commandMux (backend w) = false ->
    cstep (mkConf w ths tr)
          (mkConf (set_backend (set_commandMux true (backend w)) w)
                  (<[t := AtMarshal command v]> ths) tr)
| cstep_marshal_error w ths tr t command pl e :
    ths !! t = Some (AtMarshal command (Some pl)) ->
    proto_Marshal pl (lora_object (heap w) pl) = Err e ->
    cstep (mkConf w ths tr)
          (mkConf w (<[t := AtUnlock ([], Some (errors_Wrap e "protobuf marshal error"))]> ths) tr)
| cstep_marshal w ths tr t command v bb :
    ths !! t = Some (AtMarshal command v) ->
    encoded proto_Marshal (heap w) v = Ok bb ->
    cstep (mkConf w ths tr)
          (mkConf w (<[t := AtSendMulti [bytes_of_string command; bb]]> ths) tr)
| cstep_send_error w ths tr t msg e :
    ths !! t = Some (AtSendMulti msg) ->
    cstep (mkConf w ths tr)
          (mkConf w (<[t := AtUnlock ([], Some (errors_Wrap e "send command request error"))]> ths) tr)
| cstep_send w ths tr t msg :
    ths !! t = Some (AtSendMulti msg) ->
    cstep (mkConf w ths tr)
          (mkConf (wrote msg w) (<[t := AtRecv]> ths) (tr ++ [Request t msg]))
| cstep_recv_error w ths tr t e :
    ths !! t = Some AtRecv ->
    cstep (mkConf w ths tr)
          (mkConf w (<[t := AtUnlock ([], Some (errors_Wrap e "receive command request reply error"))]> ths) tr)
| cstep_recv w ths tr t m :
    ths !! t = Some AtRecv ->
    cstep (mkConf w ths tr)
          (mkConf w (<[t := AtUnlock (Msg_Bytes m, None)]> ths) (tr ++ [Reply t m]))
| cstep_unlock w ths tr t r :
    ths !! t = Some (AtUnlock r) ->
    cstep (mkConf w ths tr)
          (mkConf (set_backend (set_commandMux false (backend w)) w)
                  (<[t := Returned r]> ths) tr)
| cstep_elsewhere w w' ths tr :
    (* code outside commandRequest: it uses neither the mutex nor the
       command socket *)
    commandMux (backend w') = commandMux (backend w) ->
    commandSock (backend w') = commandSock (backend w) ->
    cstep (mkConf w ths tr) (mkConf w' ths tr).

End Steps.

End Concurrent.

(** * Properties *)

Ltac unfold_M :=
  unfold bind, ret, get_backend, modify_backend, get_heap, modify_heap,
    log_write, log_Fatal, commandMux_Lock, commandMux_Unlock,
    send_downlinkTXAckChan, send_uplinkFrameChan, send_gatewayStatsChan,
    send_subscribeEventChan.

Section Properties.

#[local] Set Default Proof Using "Type".

Variable proto_Marshal :
  DownlinkFrame.t -> option LoRaModulationInfo.t -> result bytes.
Variable proto_Unmarshal_DownlinkTXAck : bytes -> result DownlinkTXAck.t.
Variable proto_Unmarshal_UplinkFrame : bytes -> result UplinkFrame.t.
Variable proto_Unmarshal_GatewayStats : bytes -> result GatewayStats.t.

Abbreviation SendDownlinkFrame' :=
  (SendDownlinkFrame proto_Marshal proto_Unmarshal_DownlinkTXAck).
Abbreviation commandRequest' := (commandRequest proto_Marshal).
Abbreviation encoded' := (encoded proto_Marshal).
Abbreviation getGatewayID' := (getGatewayID proto_Marshal).
Abbreviation NewBackend' := (NewBackend proto_Marshal).
Abbreviation handleUplinkFrame' := (handleUplinkFrame proto_Unmarshal_UplinkFrame).
Abbreviation handleGatewayStats' := (handleGatewayStats proto_Unmarshal_GatewayStats).
Abbreviation eventLoop_body' :=
  (eventLoop_body proto_Unmarshal_UplinkFrame proto_Unmarshal_GatewayStats).
Abbreviation eventLoop' :=
  (eventLoop proto_Unmarshal_UplinkFrame proto_Unmarshal_GatewayStats).

(** ** [commandRequest] *)

(** The request touches the mutex and the command socket, nothing else. *)
Lemma commandRequest_frame x command v w :
  let w' := world_of (commandRequest' x command v w) in
  heap w' = heap w /\ logs w' = logs w /\
  downlinkTXAckChan (backend w') = downlinkTXAckChan (backend w) /\
  uplinkFrameChan (backend w') = uplinkFrameChan (backend w) /\
  gatewayStatsChan (backend w') = gatewayStatsChan (backend w) /\
  subscribeEventChan (backend w') = subscribeEventChan (backend w) /\
  eventSock (backend w') = eventSock (backend w) /\
  crcCheck (backend w') = crcCheck (backend w).
Proof.
  unfold commandRequest; unfold_M.
  destruct (commandMux (backend w)); simpl; [repeat split|].
  destruct (match v with Some pl => _ | None => _ end); simpl; [|repeat split].
  destruct (send_error x); simpl; [repeat split|].
  destruct (reply x); simpl; repeat split.
Qed.

(** What [commandRequest] returns, case by case. *)
Lemma commandRequest_locked x command v w :
  commandMux (backend w) = true ->
  commandRequest' x command v w = Park OnLock w.
Proof. intros H. unfold commandRequest; unfold_M. now rewrite H. Qed.

Lemma commandRequest_marshal_error x command v w e :
  commandMux (backend w) = false ->
  encoded' (heap w) v = Err e ->
  commandRequest' x command v w =
    Ret ([], Some (errors_Wrap e "protobuf marshal error")) w.
Proof.
  intros Hm He. unfold commandRequest; unfold_M. unfold encoded in He.
  rewrite Hm; simpl. rewrite He; simpl.
  destruct w as [[] ? ?]; simpl in Hm; subst; reflexivity.
Qed.

Lemma commandRequest_send_error x command v w bb e :
  commandMux (backend w) = false ->
  encoded' (heap w) v = Ok bb ->
  send_error x = Some e ->
  commandRequest' x command v w =
    Ret ([], Some (errors_Wrap e "send command request error")) w.
Proof.
  intros Hm He Hs. unfold commandRequest; unfold_M. unfold encoded in He.
  rewrite Hm; simpl. rewrite He, Hs; simpl.
  destruct w as [[] ? ?]; simpl in Hm; subst; reflexivity.
Qed.

Lemma commandRequest_recv_error x command v w bb e :
  commandMux (backend w) = false ->
  encoded' (heap w) v = Ok bb ->
  send_error x = None ->
  reply x = RecvError e ->
  commandRequest' x command v w =
    Ret ([], Some (errors_Wrap e "receive command request reply error"))
        (wrote [bytes_of_string command; bb] w).
Proof.
  intros Hm He Hs Hr. unfold commandRequest, wrote; unfold_M. unfold encoded in He.
  rewrite Hm; simpl. rewrite He, Hs; simpl. rewrite Hr; simpl.
  destruct w as [[] ? ?]; simpl in Hm; subst; reflexivity.
Qed.

Lemma commandRequest_reply x command v w bb m :
  commandMux (backend w) = false ->
  encoded' (heap w) v = Ok bb ->
  send_error x = None ->
  reply x = RecvMsg m ->
  commandRequest' x command v w =
    Ret (Msg_Bytes m, None) (wrote [bytes_of_string command; bb] w).
Proof.
  intros Hm He Hs Hr. unfold commandRequest, wrote; unfold_M. unfold encoded in He.
  rewrite Hm; simpl. rewrite He, Hs; simpl. rewrite Hr; simpl.
  destruct w as [[] ? ?]; simpl in Hm; subst; reflexivity.
Qed.

Lemma commandRequest_silent x command v w bb :
  commandMux (backend w) = false ->
  encoded' (heap w) v = Ok bb ->
  send_error x = None ->
  reply x = RecvBlocks ->
  commandRequest' x command v w =
    Park OnRecv
      (set_backend (set_commandMux true (backend (wrote [bytes_of_string command; bb] w)))
                   (wrote [bytes_of_string command; bb] w)).
Proof.
  intros Hm He Hs Hr. unfold commandRequest, wrote; unfold_M. unfold encoded in He.
  rewrite Hm; simpl. rewrite He, Hs; simpl. rewrite Hr; simpl.
  destruct w as [[] ? ?]; simpl in Hm; subst; reflexivity.
Qed.

(** The messages [commandRequest] writes: none, or the command and the
    encoding of its argument. *)
Lemma commandRequest_sent x command v w :
  let w' := world_of (commandRequest' x command v w) in
  sent (commandSock (backend w')) = sent (commandSock (backend w)) \/
  exists bb, encoded' (heap w) v = Ok bb /\
    sent (commandSock (backend w')) =
      sent (commandSock (backend w)) ++ [[bytes_of_string command; bb]].
Proof.
  destruct (commandMux (backend w)) eqn:Hm.
  { rewrite commandRequest_locked by assumption. now left. }
  destruct (encoded' (heap w) v) as [bb|e] eqn:He.
  2:{ erewrite commandRequest_marshal_error by eassumption. now left. }
  destruct (send_error x) as [e|] eqn:Hs.
  { erewrite commandRequest_send_error by eassumption. now left. }
  right. exists bb. split; [reflexivity|].
  destruct (reply x) eqn:Hr.
  - erewrite commandRequest_recv_error by eassumption. reflexivity.
  - erewrite commandRequest_reply by eassumption. reflexivity.
  - erewrite commandRequest_silent by eassumption. reflexivity.
Qed.

(** ** [SendDownlinkFrame] *)

(** [SendDownlinkFrame] after its call of [commandRequest]. *)
Lemma SendDownlinkFrame_unfold x pl w :
  SendDownlinkFrame' x pl w =
  match commandRequest' x "down" (Some pl) (at_request pl w) with
  | Ret (bb, Some e) w2 =>
      Exit (add_log (mkLogEntry FatalLevel (Some e) []
                       "backend/concentratord: send downlink command error") w2)
  | Ret (bb, None) w2 =>
      if (length bb =? 0)%nat
      then Ret (Some (errors_New "no reply receieved, check concentratord logs for error")) w2
      else
        match proto_Unmarshal_DownlinkTXAck bb with
        | Err e => Ret (Some (errors_Wrap e "protobuf unmarshal error")) w2
        | Ok ack =>
            if chan_has_room (downlinkTXAckChan (backend w2))
            then Ret None
                   (set_backend
                      (set_downlinkTXAckChan (chan_put ack (downlinkTXAckChan (backend w2)))
                         (backend w2)) w2)
            else Park (OnSend (PendDownlinkTXAck ack)) w2
        end
  | Exit w2 => Exit w2
  | Park on w2 => Park on w2
  end.
Proof.
  unfold SendDownlinkFrame, at_request, rebased. destruct w as [b h lg].
  destruct (loRaModInfo_of pl); unfold_M; unfold add_log, set_heap; cbn;
    (match goal with
     | |- context [commandRequest' ?a ?b ?c ?d] =>
         destruct (commandRequest' a b c d) as [[bb [e|]] w2|w2|on w2]
     end; cbn; try reflexivity;
     destruct (length bb =? 0)%nat; [reflexivity|];
     destruct (proto_Unmarshal_DownlinkTXAck bb); cbn; [|reflexivity];
     destruct (chan_has_room (downlinkTXAckChan (backend w2))); reflexivity).
Qed.

Lemma rebased_insert pl h l m :
  loRaModInfo_of pl = Some l ->
  h !! l = Some m ->
  rebased pl h =
    <[l := LoRaModulationInfo.set_Bandwidth
             (uint32_mul (LoRaModulationInfo.Bandwidth m) 1000) m]> h.
Proof.
  intros Hl Hm. unfold rebased. rewrite Hl.
  apply map_eq; intros i. rewrite lookup_alter, lookup_insert.
  case_decide; subst; [rewrite Hm|]; reflexivity.
Qed.

(** After the request only the log and the acknowledgement channel can
    still change. *)
Lemma SendDownlinkFrame_after_request x pl w :
  let w2 := world_of (commandRequest' x "down" (Some pl) (at_request pl w)) in
  let w' := world_of (SendDownlinkFrame' x pl w) in
  heap w' = heap w2 /\
  commandSock (backend w') = commandSock (backend w2) /\
  eventSock (backend w') = eventSock (backend w2) /\
  uplinkFrameChan (backend w') = uplinkFrameChan (backend w2) /\
  gatewayStatsChan (backend w') = gatewayStatsChan (backend w2) /\
  subscribeEventChan (backend w') = subscribeEventChan (backend w2) /\
  crcCheck (backend w') = crcCheck (backend w2).
Proof.
  rewrite SendDownlinkFrame_unfold.
  destruct (commandRequest' x "down" (Some pl) (at_request pl w))
    as [[bb [e|]] w2|w2|on w2]; simpl; try (repeat split; fail).
  destruct (length bb =? 0)%nat; simpl; [repeat split|].
  destruct (proto_Unmarshal_DownlinkTXAck bb); simpl; [|repeat split].
  destruct (chan_has_room (downlinkTXAckChan (backend w2))); simpl; repeat split.
Qed.

Lemma SendDownlinkFrame_heap x pl w :
  heap (world_of (SendDownlinkFrame' x pl w)) = rebased pl (heap w).
Proof.
  destruct (SendDownlinkFrame_after_request x pl w) as (-> & _).
  destruct (commandRequest_frame x "down" (Some pl) (at_request pl w)) as (-> & _).
  reflexivity.
Qed.

Lemma SendDownlinkFrame_subscribeEventChan x pl w :
  subscribeEventChan (backend (world_of (SendDownlinkFrame' x pl w))) =
  subscribeEventChan (backend w).
Proof.
  destruct (SendDownlinkFrame_after_request x pl w) as (_ & _ & _ & _ & _ & -> & _).
  destruct (commandRequest_frame x "down" (Some pl) (at_request pl w))
    as (_ & _ & _ & _ & _ & -> & _).
  reflexivity.
Qed.

(** The frame [commandRequest] encodes is the caller's frame with its LoRa
    object as the heap holds it after the rebasing. *)
Lemma encoded_at_request pl w l m :
  loRaModInfo_of pl = Some l ->
  heap w !! l = Some m ->
  encoded' (heap (at_request pl w)) (Some pl) =
  proto_Marshal pl
    (Some (LoRaModulationInfo.set_Bandwidth
             (uint32_mul (LoRaModulationInfo.Bandwidth m) 1000) m)).
Proof.
  intros Hl Hm. unfold encoded, lora_object, at_request; simpl.
  rewrite Hl, (rebased_insert pl (heap w) l m Hl Hm), lookup_insert_eq.
  reflexivity.
Qed.

(** C1 (as amended): for a downlink frame whose TxInfo points to a LoRa
    object with bandwidth [B], [SendDownlinkFrame] writes
    [(B * 1000) mod 2^32] into that very object of the caller's heap, whatever
    the outcome of the call; the only message it can write to the command
    socket is ["down"] with the encoding of the frame holding that bandwidth,
    and it does write it when the mutex is free, the encoding succeeds and
    [SendMulti] does not fail; the bandwidth on the wire is exactly [B * 1000]
    whenever that product fits in 32 bits. *)
Theorem SendDownlinkFrame_wire_bandwidth x pl w l m :
  loRaModInfo_of pl = Some l ->
  heap w !! l = Some m ->
  let B := LoRaModulationInfo.Bandwidth m in
  let m' := LoRaModulationInfo.set_Bandwidth ((B * 1000) mod 2 ^ 32) m in
  let w' := world_of (SendDownlinkFrame' x pl w) in
  heap w' = <[l := m']> (heap w) /\
  (sent (commandSock (backend w')) = sent (commandSock (backend w)) \/
   exists bb, proto_Marshal pl (Some m') = Ok bb /\
     sent (commandSock (backend w')) =
       sent (commandSock (backend w)) ++ [[bytes_of_string "down"; bb]]) /\
  (forall bb,
     commandMux (backend w) = false ->
     send_error x = None ->
     proto_Marshal pl (Some m') = Ok bb ->
     sent (commandSock (backend w')) =
       sent (commandSock (backend w)) ++ [[bytes_of_string "down"; bb]]) /\
  (0 <= B -> B * 1000 < 2 ^ 32 -> LoRaModulationInfo.Bandwidth m' = B * 1000).
Proof.
  intros Hl Hm B m' w'.
  assert (Hsock : commandSock (backend w') =
                  commandSock (backend (world_of
                    (commandRequest' x "down" (Some pl) (at_request pl w))))).
  { apply (SendDownlinkFrame_after_request x pl w). }
  pose proof (encoded_at_request pl w l m Hl Hm) as Henc.
  fold B in Henc. change (uint32_mul B 1000) with ((B * 1000) mod 2 ^ 32) in Henc.
  fold m' in Henc.
  split; [|split; [|split]].
  - unfold w'. rewrite SendDownlinkFrame_heap.
    apply (rebased_insert pl (heap w) l m Hl Hm).
  - rewrite Hsock.
    destruct (commandRequest_sent x "down" (Some pl) (at_request pl w))
      as [H|(bb & Hbb & H)].
    + left. exact H.
    + right. exists bb. rewrite <- Henc. split; [exact Hbb|exact H].
  - intros bb Hmux Hsend Hbb. rewrite Hsock. rewrite <- Henc in Hbb.
    destruct (reply x) eqn:Hr.
    + erewrite commandRequest_recv_error by eassumption. reflexivity.
    + erewrite commandRequest_reply by eassumption. reflexivity.
    + erewrite commandRequest_silent by eassumption. reflexivity.
  - intros H0 Hlt. simpl. apply Z.mod_small. lia.
Qed.

(** C10 (as amended): for a downlink frame whose TxInfo points to a LoRa
    object, once [SendDownlinkFrame] is over, whatever its outcome (an error
    returned after a zero-length reply or a reply that does not decode, the
    process ended by [log.Fatal] after an encode or transport error, success,
    or a parked goroutine), the caller's LoRa object holds
    [(1000 * original bandwidth) mod 2^32] with its other fields as they
    were, and every other object of the heap is as it was.  The frame struct
    itself is passed by value and never written. *)
Theorem SendDownlinkFrame_mutation_persists x pl w l m :
  loRaModInfo_of pl = Some l ->
  heap w !! l = Some m ->
  let w' := world_of (SendDownlinkFrame' x pl w) in
  heap w' !! l =
    Some (LoRaModulationInfo.mk
            ((1000 * LoRaModulationInfo.Bandwidth m) mod 2 ^ 32)
            (LoRaModulationInfo.SpreadingFactor m)
            (LoRaModulationInfo.CodeRate m)
            (LoRaModulationInfo.PolarizationInversion m)) /\
  (forall l', l' <> l -> heap w' !! l' = heap w !! l').
Proof.
  intros Hl Hm w'. unfold w'.
  rewrite SendDownlinkFrame_heap, (rebased_insert pl (heap w) l m Hl Hm).
  split.
  - rewrite lookup_insert_eq. unfold LoRaModulationInfo.set_Bandwidth, uint32_mul.
    now rewrite (Z.mul_comm 1000).
  - intros l' Hne. now rewrite lookup_insert_ne.
Qed.

(** C4: when the reply to the downlink command has zero length, the
    acknowledgement channel is left as it was (nothing is placed on it and no
    goroutine is parked on a send), the call never returns success, and, the
    exchange having come back (mutex free, frame encoded, [SendMulti] without
    error), the call returns the error "no reply receieved, ...". *)
Theorem SendDownlinkFrame_empty_reply x pl w m :
  reply x = RecvMsg m ->
  length (Msg_Bytes m) = 0%nat ->
  let o := SendDownlinkFrame' x pl w in
  downlinkTXAckChan (backend (world_of o)) = downlinkTXAckChan (backend w) /\
  (forall p w', o <> Park (OnSend p) w') /\
  returned o <> Some None /\
  (commandMux (backend w) = false ->
   send_error x = None ->
   (exists bb, encoded' (heap (at_request pl w)) (Some pl) = Ok bb) ->
   returned o =
     Some (Some (errors_New "no reply receieved, check concentratord logs for error"))).
Proof.
  intros Hr Hlen o. unfold o. rewrite SendDownlinkFrame_unfold.
  destruct (commandMux (backend w)) eqn:Hm.
  { rewrite (commandRequest_locked x "down" (Some pl) (at_request pl w) Hm).
    simpl. repeat split; try discriminate. }
  destruct (encoded' (heap (at_request pl w)) (Some pl)) as [bb|e] eqn:He.
  2:{ rewrite (commandRequest_marshal_error x "down" (Some pl) (at_request pl w) e Hm He).
      simpl. repeat split; try discriminate. now intros _ _ [bb Hbb]. }
  destruct (send_error x) as [e|] eqn:Hs.
  { rewrite (commandRequest_send_error x "down" (Some pl) (at_request pl w) bb e Hm He Hs).
    simpl. repeat split; try discriminate. }
  rewrite (commandRequest_reply x "down" (Some pl) (at_request pl w) bb m Hm He Hs Hr).
  rewrite Hlen. simpl. repeat split; try discriminate.
Qed.

(** C6 (as amended): a zero-length reply makes [SendDownlinkFrame] return the
    error "no reply receieved, ..." to its caller; the process goes on.  The
    process ends exactly when [commandRequest] itself fails: the mutex being
    free, the frame does not encode, or [SendMulti] fails, or [Recv] fails;
    it then ends in [log.Fatal], the Fatal entry carrying the wrapped error
    of that failure.  Whenever the process goes on (an empty reply, a reply
    that does not decode, an acknowledgement delivered, a parked goroutine)
    the call has logged its Info entry and nothing at the Fatal level. *)
Theorem SendDownlinkFrame_empty_reply_returns x pl w :
  let o := SendDownlinkFrame' x pl w in
  let fatal e :=
    mkLogEntry FatalLevel (Some e) []
      "backend/concentratord: send downlink command error" in
  (forall bb m,
     commandMux (backend w) = false ->
     encoded' (heap (at_request pl w)) (Some pl) = Ok bb ->
     send_error x = None -> reply x = RecvMsg m -> length (Msg_Bytes m) = 0%nat ->
     o = Ret (Some (errors_New "no reply receieved, check concentratord logs for error"))
             (wrote [bytes_of_string "down"; bb] (at_request pl w))) /\
  (exits o = true <->
   commandMux (backend w) = false /\
   ((exists e, encoded' (heap (at_request pl w)) (Some pl) = Err e) \/
    (exists bb, encoded' (heap (at_request pl w)) (Some pl) = Ok bb /\
       ((exists e, send_error x = Some e) \/
        (send_error x = None /\ exists e, reply x = RecvError e))))) /\
  (forall e,
     commandMux (backend w) = false ->
     encoded' (heap (at_request pl w)) (Some pl) = Err e ->
     o = Exit (add_log (fatal (errors_Wrap e "protobuf marshal error"))
                 (at_request pl w))) /\
  (forall bb e,
     commandMux (backend w) = false ->
     encoded' (heap (at_request pl w)) (Some pl) = Ok bb ->
     send_error x = Some e ->
     o = Exit (add_log (fatal (errors_Wrap e "send command request error"))
                 (at_request pl w))) /\
  (forall bb e,
     commandMux (backend w) = false ->
     encoded' (heap (at_request pl w)) (Some pl) = Ok bb ->
     send_error x = None -> reply x = RecvError e ->
     o = Exit (add_log (fatal (errors_Wrap e "receive command request reply error"))
                 (wrote [bytes_of_string "down"; bb] (at_request pl w)))) /\
  (exits o = false ->
   logs (world_of o) =
     logs w ++
     [mkLogEntry InfoLevel None
        [("downlink_id"%string,
          FBytes (copy_array UUID_len (DownlinkFrame.GetDownlinkId pl)))]
        "backend/concentratord: forwarding downlink command"]).
Proof.
  cbv zeta. rewrite SendDownlinkFrame_unfold.
  destruct (commandMux (backend w)) eqn:Hm.
  { rewrite (commandRequest_locked x "down" (Some pl) (at_request pl w) Hm).
    repeat split; try discriminate. now intros [? _]. }
  destruct (encoded' (heap (at_request pl w)) (Some pl)) as [bb|e] eqn:He.
  2:{ rewrite (commandRequest_marshal_error x "down" (Some pl) (at_request pl w) e Hm He).
      repeat split; try discriminate.
      - left. now exists e.
      - intros e' _ He'. now injection He' as <-. }
  destruct (send_error x) as [e|] eqn:Hs.
  { rewrite (commandRequest_send_error x "down" (Some pl) (at_request pl w) bb e Hm He Hs).
    repeat split; try discriminate.
    - right. exists bb. split; [reflexivity|]. left. now exists e.
    - intros bb' e' _ _ He'. now injection He' as <-. }
  destruct (reply x) as [e|m|] eqn:Hr.
  - rewrite (commandRequest_recv_error x "down" (Some pl) (at_request pl w) bb e Hm He Hs Hr).
    repeat split; try discriminate.
    + right. exists bb. split; [reflexivity|]. right. split; [reflexivity|]. now exists e.
    + intros bb' e' _ Hbb _ He'. injection Hbb as <-. now injection He' as <-.
  - rewrite (commandRequest_reply x "down" (Some pl) (at_request pl w) bb m Hm He Hs Hr).
    split; [|split; [|split; [|split; [|split]]]]; try discriminate.
    + intros bb' m' _ Hbb _ Hm' Hlen. injection Hbb as <-. injection Hm' as <-.
      now rewrite Hlen.
    + split.
      * destruct (length (Msg_Bytes m) =? 0)%nat; [discriminate|].
        destruct (proto_Unmarshal_DownlinkTXAck (Msg_Bytes m)); [|discriminate].
        destruct (chan_has_room _); discriminate.
      * intros (_ & [(e & H)|(bb' & _ & [(e & H)|(_ & e & H)])]); discriminate.
    + intros _.
      destruct (length (Msg_Bytes m) =? 0)%nat; [reflexivity|].
      destruct (proto_Unmarshal_DownlinkTXAck (Msg_Bytes m)); [|reflexivity].
      destruct (chan_has_room _); reflexivity.
  - rewrite (commandRequest_silent x "down" (Some pl) (at_request pl w) bb Hm He Hs Hr).
    split; [|split; [|split; [|split; [|split]]]]; try discriminate.
    + split; [discriminate|].
      intros (_ & [(e & H)|(bb' & _ & [(e & H)|(_ & e & H)])]); discriminate.
    + reflexivity.
Qed.

(** ** [handleUplinkFrame] *)

Lemma handleUplinkFrame_undecodable bb w e :
  proto_Unmarshal_UplinkFrame bb = Err e ->
  handleUplinkFrame' bb w = Ret (Some (errors_Wrap e "protobuf unmarshal error")) w.
Proof. intros H. unfold handleUplinkFrame. now rewrite H. Qed.

Lemma handleUplinkFrame_dropped bb w pl :
  proto_Unmarshal_UplinkFrame bb = Ok pl ->
  crcCheck (backend w) &&
    negb (UplinkRXInfo.GetCrcStatus (UplinkFrame.GetRxInfo pl) =? CRCStatus_CRC_OK) = true ->
  handleUplinkFrame' bb w =
    Ret None
      (add_log
         (mkLogEntry DebugLevel None
            [("uplink_id"%string,
              FBytes (copy_array UUID_len (UplinkRXInfo.GetUplinkId (UplinkFrame.GetRxInfo pl))));
             ("crc_status"%string,
              FInt (UplinkRXInfo.GetCrcStatus (UplinkFrame.GetRxInfo pl)))]
            "backend/concentratord: ignoring uplink event, CRC is not valid") w).
Proof.
  intros H Hc. unfold handleUplinkFrame. rewrite H. unfold_M. now rewrite Hc.
Qed.

Lemma handleUplinkFrame_forwarded bb w pl :
  proto_Unmarshal_UplinkFrame bb = Ok pl ->
  crcCheck (backend w) &&
    negb (UplinkRXInfo.GetCrcStatus (UplinkFrame.GetRxInfo pl) =? CRCStatus_CRC_OK) = false ->
  let w1 :=
    add_log
      (mkLogEntry InfoLevel None
         [("uplink_id"%string,
           FBytes (copy_array UUID_len (UplinkRXInfo.GetUplinkId (UplinkFrame.GetRxInfo pl))))]
         "backend/concentratord: uplink event received") w in
  handleUplinkFrame' bb w =
    if chan_has_room (uplinkFrameChan (backend w))
    then Ret None
           (set_backend
              (set_uplinkFrameChan (chan_put (delivered pl) (uplinkFrameChan (backend w)))
                 (backend w)) w1)
    else Park (OnSend (PendUplinkFrame (delivered pl))) w1.
Proof.
  intros H Hc. unfold handleUplinkFrame, delivered. rewrite H. unfold_M.
  rewrite Hc. cbn.
  destruct (chan_has_room (uplinkFrameChan (backend w))); reflexivity.
Qed.

(** C3: for a decodable uplink payload, with CRC checking enabled and a CRC
    status other than OK the handler returns with the backend, hence every
    channel, as it was; with CRC checking disabled the handler sends the frame
    on the uplink channel whatever its CRC status: the frame is placed when
    the channel has room, and otherwise the goroutine waits in the send with
    that frame. *)
Theorem handleUplinkFrame_crc_gate bb w pl :
  proto_Unmarshal_UplinkFrame bb = Ok pl ->
  (crcCheck (backend w) = true ->
   UplinkRXInfo.GetCrcStatus (UplinkFrame.GetRxInfo pl) <> CRCStatus_CRC_OK ->
   exists w', handleUplinkFrame' bb w = Ret None w' /\
              backend w' = backend w /\ heap w' = heap w) /\
  (crcCheck (backend w) = false ->
   if chan_has_room (uplinkFrameChan (backend w))
   then exists w', handleUplinkFrame' bb w = Ret None w' /\
                   uplinkFrameChan (backend w') =
                     chan_put (delivered pl) (uplinkFrameChan (backend w))
   else exists w', handleUplinkFrame' bb w =
                     Park (OnSend (PendUplinkFrame (delivered pl))) w' /\
                   backend w' = backend w).
Proof.
  intros H. split.
  - intros Hc Hcrc. eexists. split; [|split].
    + apply handleUplinkFrame_dropped; [exact H|].
      rewrite Hc. simpl. apply negb_true_iff, Z.eqb_neq, Hcrc.
    + reflexivity.
    + reflexivity.
  - intros Hc.
    rewrite (handleUplinkFrame_forwarded bb w pl H) by now rewrite Hc.
    destruct (chan_has_room (uplinkFrameChan (backend w)));
      eexists; (split; [reflexivity|]); reflexivity.
Qed.

Lemma delivered_lora pl m :
  UplinkTXInfo.GetLoraModulationInfo (UplinkFrame.GetTxInfo pl) = Some m ->
  UplinkTXInfo.GetLoraModulationInfo (UplinkFrame.GetTxInfo (delivered pl)) =
    Some (LoRaModulationInfo.set_Bandwidth
            (uint32_div (LoRaModulationInfo.Bandwidth m) 1000) m) /\
  UplinkFrame.PhyPayload (delivered pl) = UplinkFrame.PhyPayload pl /\
  UplinkFrame.RxInfo (delivered pl) = UplinkFrame.RxInfo pl.
Proof.
  intros H. unfold delivered. rewrite H.
  destruct pl as [phy [[f mo [[[x|]|]|]]|] rx]; try discriminate.
  cbn in *. injection H as ->. repeat split.
Qed.


(** ** [getGatewayID] and [NewBackend] *)

Lemma getGatewayID_unfold x w :
  getGatewayID' x w =
  match commandRequest' x "gateway_id" None w with
  | Ret (bb, Some e) w' =>
      Ret (copy_array EUI64_len [], Some (errors_Wrap e "request gateway id error")) w'
  | Ret (bb, None) w' => Ret (copy_array EUI64_len bb, None) w'
  | Exit w' => Exit w'
  | Park on w' => Park on w'
  end.
Proof.
  unfold getGatewayID, bind.
  destruct (commandRequest' x "gateway_id" None w) as [[bb [e|]] w'|w'|on w'];
    reflexivity.
Qed.

Lemma NewBackend_unfold conf io w :
  dial_event io = None ->
  set_option io = None ->
  dial_command io = None ->
  NewBackend' conf io w =
  match getGatewayID' (gateway_id_exchange io) (at_identifier_query conf w) with
  | Ret (gatewayID, Some e) w' => Ret (Some (errors_Wrap e "get gateway id error")) w'
  | Ret (gatewayID, None) w' =>
      if chan_has_room (subscribeEventChan (backend w'))
      then Ret None
             (set_backend
                (set_subscribeEventChan
                   (chan_put (Subscribe.mk true gatewayID) (subscribeEventChan (backend w')))
                   (backend w')) w')
      else Park (OnSend (PendSubscribe (Subscribe.mk true gatewayID))) w'
  | Exit w' => Exit w'
  | Park on w' => Park on w'
  end.
Proof.
  intros H1 H2 H3.
  transitivity
    ((do '(gatewayID, err) <- getGatewayID' (gateway_id_exchange io);
      match err with
      | Some e => ret (Some (errors_Wrap e "get gateway id error"))
      | None => send_subscribeEventChan (Subscribe.mk true gatewayID) ;; ret None
      end) (at_identifier_query conf w)).
  { unfold NewBackend. rewrite H1, H2, H3. destruct w; reflexivity. }
  unfold bind.
  destruct (getGatewayID' (gateway_id_exchange io) (at_identifier_query conf w))
    as [[gid [e|]] w'|w'|on w']; try reflexivity.
  unfold send_subscribeEventChan, ret.
  destruct (chan_has_room (subscribeEventChan (backend w'))); reflexivity.
Qed.

(** The identifier query in the world [NewBackend] runs it in. *)
Lemma identifier_query conf io w :
  let x := gateway_id_exchange io in
  let w1 := at_identifier_query conf w in
  let q := [bytes_of_string "gateway_id"; []] in
  getGatewayID' x w1 =
  match send_error x, reply x with
  | Some e, _ =>
      Ret (copy_array EUI64_len [],
           Some (errors_Wrap (errors_Wrap e "send command request error")
                             "request gateway id error")) w1
  | None, RecvError e =>
      Ret (copy_array EUI64_len [],
           Some (errors_Wrap (errors_Wrap e "receive command request reply error")
                             "request gateway id error")) (wrote q w1)
  | None, RecvMsg m => Ret (copy_array EUI64_len (Msg_Bytes m), None) (wrote q w1)
  | None, RecvBlocks =>
      Park OnRecv (set_backend (set_commandMux true (backend (wrote q w1))) (wrote q w1))
  end.
Proof.
  intros x w1 q. rewrite getGatewayID_unfold.
  assert (Hm : commandMux (backend w1) = false) by reflexivity.
  assert (He : encoded' (heap w1) None = Ok []) by reflexivity.
  destruct (send_error x) as [e|] eqn:Hs.
  { now rewrite (commandRequest_send_error x "gateway_id" None w1 [] e Hm He Hs). }
  destruct (reply x) as [e|m|] eqn:Hr.
  - now rewrite (commandRequest_recv_error x "gateway_id" None w1 [] e Hm He Hs Hr).
  - now rewrite (commandRequest_reply x "gateway_id" None w1 [] m Hm He Hs Hr).
  - now rewrite (commandRequest_silent x "gateway_id" None w1 [] Hm He Hs Hr).
Qed.

(** C5 (as amended): with both sockets dialled, [NewBackend] asks
    ["gateway_id"] with an empty payload; it returns an error and places no
    subscribe event when [SendMulti] or [Recv] fails; for a reply of any
    length, shorter than 8 bytes included, it returns a backend whose
    identifier is the reply's first 8 bytes, the missing ones being zero. *)
Theorem NewBackend_gateway_id conf io w :
  dial_event io = None ->
  set_option io = None ->
  dial_command io = None ->
  let x := gateway_id_exchange io in
  let o := NewBackend' conf io w in
  (forall e, send_error x = Some e ->
     returned o =
       Some (Some (errors_Wrap
                     (errors_Wrap (errors_Wrap e "send command request error")
                                  "request gateway id error")
                     "get gateway id error")) /\
     hist (subscribeEventChan (backend (world_of o))) = []) /\
  (forall e, send_error x = None -> reply x = RecvError e ->
     returned o =
       Some (Some (errors_Wrap
                     (errors_Wrap (errors_Wrap e "receive command request reply error")
                                  "request gateway id error")
                     "get gateway id error")) /\
     hist (subscribeEventChan (backend (world_of o))) = []) /\
  (forall m, send_error x = None -> reply x = RecvMsg m ->
     returned o = Some None /\
     sent (commandSock (backend (world_of o))) = [[bytes_of_string "gateway_id"; []]] /\
     hist (subscribeEventChan (backend (world_of o))) =
       [Subscribe.mk true (copy_array EUI64_len (Msg_Bytes m))]).
Proof.
  intros H1 H2 H3 x o. unfold o.
  rewrite (NewBackend_unfold conf io w H1 H2 H3), identifier_query. fold x.
  split; [|split].
  - intros e ->. split; reflexivity.
  - intros e -> ->. split; reflexivity.
  - intros m -> ->. repeat split; reflexivity.
Qed.

(** ** The event loop *)

Lemma handleGatewayStats_undecodable bb w e :
  proto_Unmarshal_GatewayStats bb = Err e ->
  handleGatewayStats' bb w = Ret (Some (errors_Wrap e "protobuf unmarshal error")) w.
Proof. intros H. unfold handleGatewayStats. now rewrite H. Qed.

(** A turn of the loop on a malformed message returns with only the log
    grown. *)
Lemma eventLoop_body_malformed frames w :
  malformed proto_Unmarshal_UplinkFrame proto_Unmarshal_GatewayStats frames ->
  exists entries,
    eventLoop_body' (RecvMsg frames) w =
      Ret tt (mkWorld (backend w) (heap w) (logs w ++ entries)).
Proof.
  destruct w as [b h lg].
  intros [fs Hn|topic payload Hup Hst|payload e He|payload e He].
  - destruct fs as [|f0 [|f1 [|f2 fs]]]; simpl in Hn; try congruence.
    + exists []. simpl. now rewrite app_nil_r.
    + eexists [_]. reflexivity.
    + eexists [_]. reflexivity.
  - eexists [_]. unfold eventLoop_body.
    apply String.eqb_neq in Hup, Hst. rewrite Hup, Hst. reflexivity.
  - eexists [_]. unfold eventLoop_body.
    change (string_of_bytes (bytes_of_string "up")) with "up"%string.
    change ("up" =? "up")%string with true. cbv iota.
    unfold bind at 1. unfold bind at 1.
    rewrite (handleUplinkFrame_undecodable payload _ e He). reflexivity.
  - eexists [_]. unfold eventLoop_body.
    change (string_of_bytes (bytes_of_string "stats")) with "stats"%string.
    change ("stats" =? "up")%string with false.
    change ("stats" =? "stats")%string with true. cbv iota.
    unfold bind at 1. unfold bind at 1.
    rewrite (handleGatewayStats_undecodable payload _ e He). reflexivity.
Qed.

(** C7: on a message that has no frame, or not exactly two, or a first frame
    that is neither ["up"] nor ["stats"], or one of these topics with a
    payload that does not decode, the turn of the loop returns (it neither
    exits the process nor parks), the backend with its four channels and the
    heap are as they were, and the loop goes on with the messages that
    follow. *)
Theorem eventLoop_skips_malformed frames w rest :
  malformed proto_Unmarshal_UplinkFrame proto_Unmarshal_GatewayStats frames ->
  exists w',
    eventLoop_body' (RecvMsg frames) w = Ret tt w' /\
    backend w' = backend w /\
    heap w' = heap w /\
    eventLoop' (RecvMsg frames :: rest) w = eventLoop' rest w'.
Proof.
  intros H. destruct (eventLoop_body_malformed frames w H) as [entries He].
  eexists. split; [exact He|]. repeat split.
  change (eventLoop' (RecvMsg frames :: rest) w)
    with (bind (eventLoop_body' (RecvMsg frames)) (fun _ => eventLoop' rest) w).
  unfold bind. now rewrite He.
Qed.

(** ** The subscribe channel over the life of a backend *)

Lemma handleUplinkFrame_subscribeEventChan bb w :
  let o := handleUplinkFrame' bb w in
  subscribeEventChan (backend (world_of o)) = subscribeEventChan (backend w) /\
  (forall v w', o <> Park (OnSend (PendSubscribe v)) w').
Proof.
  destruct (proto_Unmarshal_UplinkFrame bb) as [pl|e] eqn:H.
  2:{ rewrite (handleUplinkFrame_undecodable bb w e H). now split. }
  destruct (crcCheck (backend w) &&
            negb (UplinkRXInfo.GetCrcStatus (UplinkFrame.GetRxInfo pl) =? CRCStatus_CRC_OK))
    eqn:Hc.
  - rewrite (handleUplinkFrame_dropped bb w pl H Hc). now split.
  - rewrite (handleUplinkFrame_forwarded bb w pl H Hc).
    destruct (chan_has_room (uplinkFrameChan (backend w))); now split.
Qed.

Lemma handleGatewayStats_subscribeEventChan bb w :
  let o := handleGatewayStats' bb w in
  subscribeEventChan (backend (world_of o)) = subscribeEventChan (backend w) /\
  (forall v w', o <> Park (OnSend (PendSubscribe v)) w').
Proof.
  unfold handleGatewayStats.
  destruct (proto_Unmarshal_GatewayStats bb) as [pl|e]; [|now split].
  unfold_M. cbn.
  destruct (chan_has_room (gatewayStatsChan (backend w))); now split.
Qed.

Lemma eventLoop_body_subscribeEventChan r w :
  let o := eventLoop_body' r w in
  subscribeEventChan (backend (world_of o)) = subscribeEventChan (backend w) /\
  (forall v w', o <> Park (OnSend (PendSubscribe v)) w').
Proof.
  destruct r as [e|[|topic [|payload [|f2 frames]]]|]; try (now split).
  cbv zeta. unfold eventLoop_body, bind.
  destruct (string_of_bytes topic =? "up")%string.
  { pose proof (handleUplinkFrame_subscribeEventChan payload w) as [H1 H2].
    destruct (handleUplinkFrame' payload w) as [[e|] w'| w'|on w']; simpl in *;
      (split; [exact H1|]); intros v w'' Heq;
      first [discriminate Heq | apply (H2 v w''); congruence]. }
  destruct (string_of_bytes topic =? "stats")%string.
  { pose proof (handleGatewayStats_subscribeEventChan payload w) as [H1 H2].
    destruct (handleGatewayStats' payload w) as [[e|] w'| w'|on w']; simpl in *;
      (split; [exact H1|]); intros v w'' Heq;
      first [discriminate Heq | apply (H2 v w''); congruence]. }
  now split.
Qed.

Lemma SendDownlinkFrame_never_parks_subscribe x pl w v w' :
  SendDownlinkFrame' x pl w <> Park (OnSend (PendSubscribe v)) w'.
Proof.
  rewrite SendDownlinkFrame_unfold.
  destruct (commandRequest' x "down" (Some pl) (at_request pl w))
    as [[bb [e|]] w2|w2|on w2] eqn:Hq; try discriminate.
  - destruct (length bb =? 0)%nat; [discriminate|].
    destruct (proto_Unmarshal_DownlinkTXAck bb); [|discriminate].
    destruct (chan_has_room (downlinkTXAckChan (backend w2))); discriminate.
  - intros Heq. injection Heq as -> ->.
    revert Hq. unfold commandRequest; unfold_M.
    destruct (commandMux (backend (at_request pl w))); [discriminate|]. cbn.
    destruct (proto_Marshal pl _); [|discriminate]. cbn.
    destruct (send_error x); [discriminate|]. cbn.
    destruct (reply x); discriminate.
Qed.

Abbreviation run_call' :=
  (run_call proto_Marshal proto_Unmarshal_DownlinkTXAck
     proto_Unmarshal_UplinkFrame proto_Unmarshal_GatewayStats).
Abbreviation step' :=
  (step proto_Marshal proto_Unmarshal_DownlinkTXAck
     proto_Unmarshal_UplinkFrame proto_Unmarshal_GatewayStats).

(** No call on the backend and no turn of the loop touches the subscribe
    channel or parks on a send to it. *)
Lemma run_call_subscribeEventChan c w :
  let o := run_call' c w in
  subscribeEventChan (backend (world_of o)) = subscribeEventChan (backend w) /\
  (forall v w', o <> Park (OnSend (PendSubscribe v)) w').
Proof.
  destruct c; try (now split).
  - pose proof (SendDownlinkFrame_subscribeEventChan x pl w) as H1.
    pose proof (SendDownlinkFrame_never_parks_subscribe x pl w) as H2.
    cbv zeta. unfold run_call, bind.
    destruct (SendDownlinkFrame' x pl w) as [a w'|w'|on w']; simpl in *;
      (split; [exact H1|]); intros v w'' Heq;
      first [discriminate Heq | apply (H2 v w''); congruence].
  - apply eventLoop_body_subscribeEventChan.
Qed.

(** What holds of the subscribe channel all along: its history is the one
    event [ev], and no goroutine waits to place another. *)
Lemma step_subscribeEventChan ev p p' :
  step' p p' ->
  (hist (subscribeEventChan (backend (world p))) = [ev] /\
   Forall (fun q => forall v, q <> PendSubscribe v) (parked p)) ->
  hist (subscribeEventChan (backend (world p'))) = [ev] /\
  Forall (fun q => forall v, q <> PendSubscribe v) (parked p').
Proof.
  intros Hstep [Hh Hp].
  destruct Hstep as [c w ps w' Hc|c w ps w' Hc|c w ps q w' Hc|c w ps w' Hc
                    |c w ps w' Hc|w ps1 q ps2 b' Hq|w ps v c' Ht|w ps v c' Ht
                    |w ps v c' Ht|w ps v c' Ht|w ps h'];
    simpl in *;
    try (pose proof (run_call_subscribeEventChan c w) as [H1 H2];
         rewrite Hc in H1; simpl in H1).
  - now rewrite H1.
  - now rewrite H1.
  - rewrite H1. split; [exact Hh|]. constructor; [|exact Hp].
    intros v ->. apply (H2 v w'). exact Hc.
  - now rewrite H1.
  - now rewrite H1.
  - apply Forall_app in Hp as [Hp1 Hp2]. apply Forall_cons in Hp2 as [Hq' Hp2].
    split; [|apply Forall_app; now split].
    destruct q as [v|v|v|v]; simpl in Hq;
      try (match type of Hq with
           | (if ?c then _ else _) = _ => destruct c; [|discriminate]
           end; injection Hq as <-; exact Hh).
    now destruct (Hq' v).
  - now split.
  - now split.
  - now split.
  - split; [|exact Hp]. unfold chan_take in Ht.
    destruct (buf (subscribeEventChan (backend w))); [discriminate|].
    injection Ht as _ <-. exact Hh.
  - now split.
Qed.

(** What a successful [NewBackend] leaves on the subscribe channel. *)
Lemma NewBackend_subscribeEventChan conf io w w1 :
  NewBackend' conf io w = Ret None w1 ->
  exists m,
    reply (gateway_id_exchange io) = RecvMsg m /\
    subscribeEventChan (backend w1) =
      chan_put (Subscribe.mk true (copy_array EUI64_len (Msg_Bytes m))) (make_chan 1).
Proof.
  destruct (dial_event io) as [e|] eqn:H1.
  { unfold NewBackend; unfold_M. rewrite H1. discriminate. }
  destruct (set_option io) as [e|] eqn:H2.
  { unfold NewBackend; unfold_M. rewrite H1, H2. discriminate. }
  destruct (dial_command io) as [e|] eqn:H3.
  { unfold NewBackend; unfold_M. rewrite H1, H2, H3. discriminate. }
  rewrite (NewBackend_unfold conf io w H1 H2 H3), identifier_query.
  destruct (send_error (gateway_id_exchange io)); [discriminate|].
  destruct (reply (gateway_id_exchange io)) as [e|m|]; try discriminate.
  cbn. intros Heq. injection Heq as <-. exists m. split; reflexivity.
Qed.

(** C8: over the whole life of a backend that [NewBackend] returned, after
    any calls on it ([SendDownlinkFrame], [Close] and the others), any turns
    of the event loop, any receives by the upstream application and any
    completed sends, the values ever placed on the subscribe channel are
    exactly one event, with [Subscribe = true] and the identifier copied from
    the reply to the identifier query; no goroutine is waiting to place
    another one. *)
Theorem exactly_one_subscribe_event conf io w0 p :
  lives proto_Marshal proto_Unmarshal_DownlinkTXAck proto_Unmarshal_UplinkFrame
    proto_Unmarshal_GatewayStats conf io w0 p ->
  exists m,
    reply (gateway_id_exchange io) = RecvMsg m /\
    hist (subscribeEventChan (backend (world p))) =
      [Subscribe.mk true (copy_array EUI64_len (Msg_Bytes m))] /\
    Forall (fun q => forall v, q <> PendSubscribe v) (parked p).
Proof.
  intros (w1 & Hnew & Hlife).
  destruct (NewBackend_subscribeEventChan conf io w0 w1 Hnew) as (m & Hm & Hc).
  exists m. split; [exact Hm|].
  revert p Hlife. apply rtc_ind_r.
  - simpl. rewrite Hc. split; [reflexivity|constructor].
  - intros p p' _ Hstep IH. eapply step_subscribeEventChan; eassumption.
Qed.

(** ** Further properties of [NewBackend] *)

(** X1: when a socket call of [NewBackend] fails (dialling the event socket,
    subscribing, dialling the command socket, in this order), it returns that
    error wrapped with the step's message; nothing has been written to the
    command socket, no subscribe event has been placed and the heap is as it
    was. *)
Theorem NewBackend_connection_error conf io w e msg :
  (dial_event io = Some e /\ msg = "dial event api url error"%string) \/
  (dial_event io = None /\ set_option io = Some e /\
   msg = "set event option error"%string) \/
  (dial_event io = None /\ set_option io = None /\ dial_command io = Some e /\
   msg = "dial command api url error"%string) ->
  exists w',
    NewBackend' conf io w = Ret (Some (errors_Wrap e msg)) w' /\
    sent (commandSock (backend w')) = [] /\
    hist (subscribeEventChan (backend w')) = [] /\
    heap w' = heap w.
Proof.
  intros [(H1 & ->)|[(H1 & H2 & ->)|(H1 & H2 & H3 & ->)]];
    unfold NewBackend; unfold_M.
  - rewrite H1. eexists. repeat split.
  - rewrite H1, H2. eexists. repeat split.
  - rewrite H1, H2, H3. eexists. repeat split.
Qed.

(** X2: [NewBackend] never ends the process, never waits for the mutex and
    never waits to place its subscribe event (the channel is new and has room
    for one); the only way it does not return is a command socket that stays
    silent after the identifier request. *)
Theorem NewBackend_returns_unless_silent conf io w :
  let o := NewBackend' conf io w in
  exits o = false /\
  (forall on w', o = Park on w' ->
     on = OnRecv /\
     reply (gateway_id_exchange io) = RecvBlocks /\
     sent (commandSock (backend w')) = [[bytes_of_string "gateway_id"; []]]) /\
  (reply (gateway_id_exchange io) <> RecvBlocks -> exists r w', o = Ret r w').
Proof.
  cbv zeta.
  destruct (dial_event io) as [e|] eqn:H1.
  { unfold NewBackend; unfold_M. rewrite H1.
    split; [reflexivity|]. split; [discriminate|]. intros _. eauto. }
  destruct (set_option io) as [e|] eqn:H2.
  { unfold NewBackend; unfold_M. rewrite H1, H2.
    split; [reflexivity|]. split; [discriminate|]. intros _. eauto. }
  destruct (dial_command io) as [e|] eqn:H3.
  { unfold NewBackend; unfold_M. rewrite H1, H2, H3.
    split; [reflexivity|]. split; [discriminate|]. intros _. eauto. }
  rewrite (NewBackend_unfold conf io w H1 H2 H3), identifier_query.
  destruct (send_error (gateway_id_exchange io)) as [e|].
  { split; [reflexivity|]. split; [discriminate|]. intros _. eauto. }
  destruct (reply (gateway_id_exchange io)) as [e|m|].
  - split; [reflexivity|]. split; [discriminate|]. intros _. eauto.
  - cbn. split; [reflexivity|]. split; [discriminate|]. intros _. eauto.
  - split; [reflexivity|]. split.
    + intros on w' Heq. injection Heq as <- <-. repeat split.
    + intros H. now destruct H.
Qed.

(** X3: the backend [NewBackend] returns checks CRCs as the configuration
    says, has its event socket dialled to the event URL and subscribed to the
    empty prefix (every topic), its command socket dialled to the command URL,
    its mutex free, its three other channels empty with capacity one; the
    heap is as it was. *)
Theorem NewBackend_ready conf io w w' :
  NewBackend' conf io w = Ret None w' ->
  crcCheck (backend w') = CRCCheck conf /\
  commandMux (backend w') = false /\
  eventSock (backend w') =
    mkSocket (Some (EventURL conf)) [""%string] false [] /\
  commandSock (backend w') =
    mkSocket (Some (CommandURL conf)) [] false [[bytes_of_string "gateway_id"; []]] /\
  downlinkTXAckChan (backend w') = make_chan 1 /\
  uplinkFrameChan (backend w') = make_chan 1 /\
  gatewayStatsChan (backend w') = make_chan 1 /\
  cap (subscribeEventChan (backend w')) = 1%nat /\
  heap w' = heap w.
Proof.
  destruct (dial_event io) as [e|] eqn:H1.
  { unfold NewBackend; unfold_M. rewrite H1. discriminate. }
  destruct (set_option io) as [e|] eqn:H2.
  { unfold NewBackend; unfold_M. rewrite H1, H2. discriminate. }
  destruct (dial_command io) as [e|] eqn:H3.
  { unfold NewBackend; unfold_M. rewrite H1, H2, H3. discriminate. }
  rewrite (NewBackend_unfold conf io w H1 H2 H3), identifier_query.
  destruct (send_error (gateway_id_exchange io)); [discriminate|].
  destruct (reply (gateway_id_exchange io)) as [e|m|]; try discriminate.
  cbn. intros Heq. injection Heq as <-. repeat split.
Qed.

(** ** Further properties of [SendDownlinkFrame] *)

(** X4: when the exchange brings back a non-empty reply that decodes to an
    acknowledgement, [SendDownlinkFrame] sends that acknowledgement on the
    acknowledgement channel: with room in the channel it is placed, the call
    returns nil and the mutex is free again; with the channel full the
    goroutine waits in the send with that acknowledgement. *)
Theorem SendDownlinkFrame_acknowledged x pl w bb m ack :
  commandMux (backend w) = false ->
  encoded' (heap (at_request pl w)) (Some pl) = Ok bb ->
  send_error x = None ->
  reply x = RecvMsg m ->
  length (Msg_Bytes m) <> 0%nat ->
  proto_Unmarshal_DownlinkTXAck (Msg_Bytes m) = Ok ack ->
  let o := SendDownlinkFrame' x pl w in
  if chan_has_room (downlinkTXAckChan (backend w))
  then returned o = Some None /\
       downlinkTXAckChan (backend (world_of o)) =
         chan_put ack (downlinkTXAckChan (backend w)) /\
       commandMux (backend (world_of o)) = false
  else o = Park (OnSend (PendDownlinkTXAck ack))
             (wrote [bytes_of_string "down"; bb] (at_request pl w)).
Proof.
  intros Hm He Hs Hr Hlen Hack. cbv zeta.
  rewrite SendDownlinkFrame_unfold.
  rewrite (commandRequest_reply x "down" (Some pl) (at_request pl w) bb m Hm He Hs Hr).
  apply Nat.eqb_neq in Hlen. rewrite Hlen, Hack.
  change (downlinkTXAckChan
            (backend (wrote [bytes_of_string "down"; bb] (at_request pl w))))
    with (downlinkTXAckChan (backend w)).
  destruct (chan_has_room (downlinkTXAckChan (backend w))); [|reflexivity].
  repeat split. exact Hm.
Qed.

(** X5: when the exchange brings back a non-empty reply that does not
    decode, [SendDownlinkFrame] returns the decoding error wrapped as
    "protobuf unmarshal error"; the process goes on and the acknowledgement
    channel is as it was. *)
Theorem SendDownlinkFrame_decode_error x pl w bb m e :
  commandMux (backend w) = false ->
  encoded' (heap (at_request pl w)) (Some pl) = Ok bb ->
  send_error x = None ->
  reply x = RecvMsg m ->
  length (Msg_Bytes m) <> 0%nat ->
  proto_Unmarshal_DownlinkTXAck (Msg_Bytes m) = Err e ->
  SendDownlinkFrame' x pl w =
    Ret (Some (errors_Wrap e "protobuf unmarshal error"))
        (wrote [bytes_of_string "down"; bb] (at_request pl w)).
Proof.
  intros Hm He Hs Hr Hlen Hack.
  rewrite SendDownlinkFrame_unfold.
  rewrite (commandRequest_reply x "down" (Some pl) (at_request pl w) bb m Hm He Hs Hr).
  apply Nat.eqb_neq in Hlen. now rewrite Hlen, Hack.
Qed.

(** X6: [SendDownlinkFrame] ends the process exactly when its call of
    [commandRequest] fails: the mutex being free, the frame does not encode,
    or [SendMulti] fails, or [Recv] fails.  A held mutex, a silent peer, an
    empty reply, a reply that does not decode and a full acknowledgement
    channel never end it. *)
Theorem SendDownlinkFrame_exits_iff x pl w :
  exits (SendDownlinkFrame' x pl w) = true <->
  commandMux (backend w) = false /\
  ((exists e, encoded' (heap (at_request pl w)) (Some pl) = Err e) \/
   (exists bb, encoded' (heap (at_request pl w)) (Some pl) = Ok bb /\
      ((exists e, send_error x = Some e) \/
       (send_error x = None /\ exists e, reply x = RecvError e)))).
Proof.
  rewrite SendDownlinkFrame_unfold.
  destruct (commandMux (backend w)) eqn:Hm.
  { rewrite (commandRequest_locked x "down" (Some pl) (at_request pl w) Hm).
    split; [discriminate|]. now intros [? _]. }
  destruct (encoded' (heap (at_request pl w)) (Some pl)) as [bb|e] eqn:He.
  2:{ rewrite (commandRequest_marshal_error x "down" (Some pl) (at_request pl w) e Hm He).
      split; [|reflexivity]. intros _. split; [reflexivity|]. left. now exists e. }
  destruct (send_error x) as [e|] eqn:Hs.
  { rewrite (commandRequest_send_error x "down" (Some pl) (at_request pl w) bb e Hm He Hs).
    split; [|reflexivity]. intros _. split; [reflexivity|].
    right. exists bb. split; [reflexivity|]. left. now exists e. }
  destruct (reply x) as [e|m|] eqn:Hr.
  - rewrite (commandRequest_recv_error x "down" (Some pl) (at_request pl w) bb e Hm He Hs Hr).
    split; [|reflexivity]. intros _. split; [reflexivity|].
    right. exists bb. split; [reflexivity|]. right. split; [reflexivity|]. now exists e.
  - rewrite (commandRequest_reply x "down" (Some pl) (at_request pl w) bb m Hm He Hs Hr).
    split.
    + destruct (length (Msg_Bytes m) =? 0)%nat; [discriminate|].
      destruct (proto_Unmarshal_DownlinkTXAck (Msg_Bytes m)); [|discriminate].
      destruct (chan_has_room _); discriminate.
    + intros (_ & [(e & H)|(bb' & _ & [(e & H)|(_ & e & H)])]); discriminate.
  - rewrite (commandRequest_silent x "down" (Some pl) (at_request pl w) bb Hm He Hs Hr).
    split; [discriminate|].
    intros (_ & [(e & H)|(bb' & _ & [(e & H)|(_ & e & H)])]); discriminate.
Qed.

(** X7: for a frame without a LoRa object (no TxInfo, no modulation info,
    FSK modulation, or a nil LoRa pointer) [SendDownlinkFrame] leaves the
    whole heap as it was, whatever its outcome. *)
Theorem SendDownlinkFrame_without_lora x pl w :
  DownlinkFrame.TxInfo pl = None \/
  (exists tx, DownlinkFrame.TxInfo pl = Some tx /\
     (DownlinkTXInfo.ModulationInfo tx = None \/
      (exists f, DownlinkTXInfo.ModulationInfo tx =
                   Some (DownlinkTXInfo.FskModulationInfo f)) \/
      DownlinkTXInfo.ModulationInfo tx =
        Some (DownlinkTXInfo.LoraModulationInfo None))) ->
  heap (world_of (SendDownlinkFrame' x pl w)) = heap w.
Proof.
  intros H. rewrite SendDownlinkFrame_heap. unfold rebased.
  assert (Hn : loRaModInfo_of pl = None).
  { unfold loRaModInfo_of, DownlinkFrame.GetTxInfo,
      DownlinkTXInfo.GetLoraModulationInfo, DownlinkTXInfo.GetModulationInfo.
    destruct H as [->|(tx & -> & [->|[(f & ->)| ->]])]; reflexivity. }
  now rewrite Hn.
Qed.

(** X8: the rebasing is applied at every call: sending the same frame twice
    leaves its LoRa object with bandwidth [(B * 1000000) mod 2^32], whatever
    the two exchanges do. *)
Theorem SendDownlinkFrame_twice x1 x2 pl w l m :
  loRaModInfo_of pl = Some l ->
  heap w !! l = Some m ->
  let w1 := world_of (SendDownlinkFrame' x1 pl w) in
  let w2 := world_of (SendDownlinkFrame' x2 pl w1) in
  heap w2 !! l =
    Some (LoRaModulationInfo.set_Bandwidth
            ((LoRaModulationInfo.Bandwidth m * 1000000) mod 2 ^ 32) m).
Proof.
  intros Hl Hm w1 w2. unfold w2, w1.
  rewrite !SendDownlinkFrame_heap.
  rewrite (rebased_insert pl (heap w) l m Hl Hm).
  erewrite (rebased_insert pl _ l _ Hl) by apply lookup_insert_eq.
  rewrite lookup_insert_eq. f_equal.
  unfold LoRaModulationInfo.set_Bandwidth, uint32_mul, uint32_modulus. cbn.
  f_equal. rewrite Z.mul_mod_idemp_l by discriminate.
  f_equal. lia.
Qed.

(** ** Further properties of [commandRequest] *)

(** X9: [commandRequest] on a held mutex waits without touching anything;
    whenever it returns, with a reply or with an error, the mutex is free
    again; it never ends the process; and when it waits for a reply that does
    not come it still holds the mutex. *)
Theorem commandRequest_mutex x command v w :
  let o := commandRequest' x command v w in
  (commandMux (backend w) = true -> o = Park OnLock w) /\
  (forall r w', o = Ret r w' -> commandMux (backend w') = false) /\
  (forall w', o = Park OnRecv w' -> commandMux (backend w') = true) /\
  exits o = false.
Proof.
  cbv zeta.
  destruct (commandMux (backend w)) eqn:Hm.
  { rewrite (commandRequest_locked x command v w Hm).
    repeat split; discriminate. }
  split; [discriminate|].
  destruct (encoded' (heap w) v) as [bb|e] eqn:He.
  2:{ rewrite (commandRequest_marshal_error x command v w e Hm He).
      repeat split; try discriminate. intros r w' Heq. now injection Heq as _ <-. }
  destruct (send_error x) as [e|] eqn:Hs.
  { rewrite (commandRequest_send_error x command v w bb e Hm He Hs).
    repeat split; try discriminate. intros r w' Heq. now injection Heq as _ <-. }
  destruct (reply x) as [e|m|] eqn:Hr.
  - rewrite (commandRequest_recv_error x command v w bb e Hm He Hs Hr).
    repeat split; try discriminate. intros r w' Heq. now injection Heq as _ <-.
  - rewrite (commandRequest_reply x command v w bb m Hm He Hs Hr).
    repeat split; try discriminate. intros r w' Heq. now injection Heq as _ <-.
  - rewrite (commandRequest_silent x command v w bb Hm He Hs Hr).
    repeat split; try discriminate. intros w' Heq. now injection Heq as <-.
Qed.

(** ** Further properties of the handlers and of the event loop *)

(** X10: [handleGatewayStats] filters nothing: a payload that decodes is
    sent on the stats channel as decoded, whatever the CRC setting (placed
    when the channel has room, the goroutine waiting in the send otherwise);
    a payload that does not decode gives the wrapped error and changes
    nothing. *)
Theorem handleGatewayStats_forwards bb w :
  match proto_Unmarshal_GatewayStats bb with
  | Err e =>
      handleGatewayStats' bb w =
        Ret (Some (errors_Wrap e "protobuf unmarshal error")) w
  | Ok pl =>
      if chan_has_room (gatewayStatsChan (backend w))
      then exists w',
             handleGatewayStats' bb w = Ret None w' /\
             gatewayStatsChan (backend w') = chan_put pl (gatewayStatsChan (backend w)) /\
             uplinkFrameChan (backend w') = uplinkFrameChan (backend w) /\
             downlinkTXAckChan (backend w') = downlinkTXAckChan (backend w) /\
             subscribeEventChan (backend w') = subscribeEventChan (backend w)
      else exists w',
             handleGatewayStats' bb w = Park (OnSend (PendGatewayStats pl)) w' /\
             backend w' = backend w
  end.
Proof.
  unfold handleGatewayStats.
  destruct (proto_Unmarshal_GatewayStats bb) as [pl|e]; [|reflexivity].
  unfold_M. cbn.
  destruct (chan_has_room (gatewayStatsChan (backend w)));
    eexists; repeat split.
Qed.

(** The turn of the loop on an ["up"] or a ["stats"] message, from what the
    handler does. *)
Lemma eventLoop_body_up payload w :
  eventLoop_body' (RecvMsg [bytes_of_string "up"; payload]) w =
  match handleUplinkFrame' payload w with
  | Ret (Some e) w' =>
      Ret tt (add_log (mkLogEntry ErrorLevel (Some e)
                         [("event"%string, FString "up")]
                         "backend/concentratord: handle event error") w')
  | Ret None w' => Ret tt w'
  | Exit w' => Exit w'
  | Park on w' => Park on w'
  end.
Proof.
  unfold eventLoop_body.
  change (string_of_bytes (bytes_of_string "up")) with "up"%string.
  change ("up" =? "up")%string with true. cbv iota. unfold bind.
  destruct (handleUplinkFrame' payload w) as [[e|] w'|w'|on w']; reflexivity.
Qed.

Lemma eventLoop_body_stats payload w :
  eventLoop_body' (RecvMsg [bytes_of_string "stats"; payload]) w =
  match handleGatewayStats' payload w with
  | Ret (Some e) w' =>
      Ret tt (add_log (mkLogEntry ErrorLevel (Some e)
                         [("event"%string, FString "stats")]
                         "backend/concentratord: handle event error") w')
  | Ret None w' => Ret tt w'
  | Exit w' => Exit w'
  | Park on w' => Park on w'
  end.
Proof.
  unfold eventLoop_body.
  change (string_of_bytes (bytes_of_string "stats")) with "stats"%string.
  change ("stats" =? "up")%string with false.
  change ("stats" =? "stats")%string with true. cbv iota. unfold bind.
  destruct (handleGatewayStats' payload w) as [[e|] w'|w'|on w']; reflexivity.
Qed.

Lemma eventLoop_cons r rest w :
  eventLoop' (r :: rest) w =
  match eventLoop_body' r w with
  | Ret _ w' => eventLoop' rest w'
  | Exit w' => Exit w'
  | Park on w' => Park on w'
  end.
Proof. reflexivity. Qed.

(** X11: an ["up"] message whose payload decodes to a frame that passes the
    CRC gate goes from the loop to the uplink channel, rebased: with room in
    the channel the frame is placed and the loop goes on with the following
    messages; with the channel full the loop waits in the send with that
    frame and the following messages stay unread. *)
Theorem eventLoop_delivers_uplink payload pl w rest :
  proto_Unmarshal_UplinkFrame payload = Ok pl ->
  crcCheck (backend w) &&
    negb (UplinkRXInfo.GetCrcStatus (UplinkFrame.GetRxInfo pl) =? CRCStatus_CRC_OK) = false ->
  let up := RecvMsg [bytes_of_string "up"; payload] in
  if chan_has_room (uplinkFrameChan (backend w))
  then exists w',
         eventLoop_body' up w = Ret tt w' /\
         uplinkFrameChan (backend w') =
           chan_put (delivered pl) (uplinkFrameChan (backend w)) /\
         eventLoop' (up :: rest) w = eventLoop' rest w'
  else exists w',
         eventLoop' (up :: rest) w = Park (OnSend (PendUplinkFrame (delivered pl))) w' /\
         backend w' = backend w.
Proof.
  intros H Hc up. unfold up.
  rewrite eventLoop_cons, eventLoop_body_up.
  rewrite (handleUplinkFrame_forwarded payload w pl H Hc).
  destruct (chan_has_room (uplinkFrameChan (backend w)));
    eexists; repeat split.
Qed.

(** X12: a ["stats"] message whose payload decodes goes from the loop to the
    stats channel as decoded, with CRC checking on or off: placed when the
    channel has room, the loop going on with the following messages; with the
    channel full the loop waits in the send and the following messages stay
    unread. *)
Theorem eventLoop_delivers_stats payload pl w rest :
  proto_Unmarshal_GatewayStats payload = Ok pl ->
  let stats := RecvMsg [bytes_of_string "stats"; payload] in
  if chan_has_room (gatewayStatsChan (backend w))
  then exists w',
         eventLoop_body' stats w = Ret tt w' /\
         gatewayStatsChan (backend w') = chan_put pl (gatewayStatsChan (backend w)) /\
         eventLoop' (stats :: rest) w = eventLoop' rest w'
  else exists w',
         eventLoop' (stats :: rest) w = Park (OnSend (PendGatewayStats pl)) w' /\
         backend w' = backend w.
Proof.
  intros H stats. unfold stats.
  rewrite eventLoop_cons, eventLoop_body_stats.
  unfold handleGatewayStats. rewrite H. unfold_M. cbn.
  destruct (chan_has_room (gatewayStatsChan (backend w)));
    eexists; repeat split.
Qed.

(** The loop over a run of malformed messages: only the log grows. *)
Lemma eventLoop_malformed_prefix msgs rest w :
  Forall (malformed proto_Unmarshal_UplinkFrame proto_Unmarshal_GatewayStats) msgs ->
  exists entries,
    eventLoop' (map RecvMsg msgs ++ rest) w =
      eventLoop' rest (mkWorld (backend w) (heap w) (logs w ++ entries)).
Proof.
  intros H. revert w. induction H as [|msg msgs Hmsg _ IH]; intros w.
  - exists []. simpl. rewrite app_nil_r. now destruct w.
  - destruct (eventLoop_body_malformed msg w Hmsg) as [entries He].
    destruct (IH (mkWorld (backend w) (heap w) (logs w ++ entries))) as [entries' He'].
    exists (entries ++ entries'). simpl map. rewrite <- app_comm_cons.
    rewrite eventLoop_cons, He, He'. simpl. now rewrite app_assoc.
Qed.

(** X13: a run of malformed messages, however long, leaves the backend and
    the heap as they were, and the loop then treats what follows exactly as
    it would have without them (up to the log). *)
Theorem eventLoop_skips_all_malformed msgs rest w :
  Forall (malformed proto_Unmarshal_UplinkFrame proto_Unmarshal_GatewayStats) msgs ->
  exists w',
    backend w' = backend w /\ heap w' = heap w /\
    eventLoop' (map RecvMsg msgs ++ rest) w = eventLoop' rest w'.
Proof.
  intros H. destruct (eventLoop_malformed_prefix msgs rest w H) as [entries He].
  exists (mkWorld (backend w) (heap w) (logs w ++ entries)).
  repeat split. exact He.
Qed.

(** X14: a failing [Recv] on the event socket ends the process in
    [log.Fatal], also after any run of malformed messages; the messages after
    the failure are never read and the channels are as they were. *)
Theorem eventLoop_receive_error_exits msgs e rest w :
  Forall (malformed proto_Unmarshal_UplinkFrame proto_Unmarshal_GatewayStats) msgs ->
  let o := eventLoop' (map RecvMsg msgs ++ RecvError e :: rest) w in
  exits o = true /\
  backend (world_of o) = backend w /\
  last (logs (world_of o)) =
    Some (mkLogEntry FatalLevel (Some e) []
            "backend/concentratord: receive event message error").
Proof.
  intros H o. unfold o.
  destruct (eventLoop_malformed_prefix msgs (RecvError e :: rest) w H) as [entries ->].
  rewrite eventLoop_cons. cbn. repeat split. apply last_snoc.
Qed.

(** What a handler leaves alone. *)
Lemma handleUplinkFrame_frame bb w :
  let w' := world_of (handleUplinkFrame' bb w) in
  heap w' = heap w /\
  commandSock (backend w') = commandSock (backend w) /\
  commandMux (backend w') = commandMux (backend w) /\
  eventSock (backend w') = eventSock (backend w) /\
  downlinkTXAckChan (backend w') = downlinkTXAckChan (backend w) /\
  gatewayStatsChan (backend w') = gatewayStatsChan (backend w) /\
  subscribeEventChan (backend w') = subscribeEventChan (backend w) /\
  crcCheck (backend w') = crcCheck (backend w).
Proof.
  cbv zeta.
  destruct (proto_Unmarshal_UplinkFrame bb) as [pl|e] eqn:H.
  2:{ rewrite (handleUplinkFrame_undecodable bb w e H). repeat split. }
  destruct (crcCheck (backend w) &&
            negb (UplinkRXInfo.GetCrcStatus (UplinkFrame.GetRxInfo pl) =? CRCStatus_CRC_OK))
    eqn:Hc.
  - rewrite (handleUplinkFrame_dropped bb w pl H Hc). repeat split.
  - rewrite (handleUplinkFrame_forwarded bb w pl H Hc).
    destruct (chan_has_room (uplinkFrameChan (backend w))); repeat split.
Qed.

Lemma handleGatewayStats_frame bb w :
  let w' := world_of (handleGatewayStats' bb w) in
  heap w' = heap w /\
  commandSock (backend w') = commandSock (backend w) /\
  commandMux (backend w') = commandMux (backend w) /\
  eventSock (backend w') = eventSock (backend w) /\
  downlinkTXAckChan (backend w') = downlinkTXAckChan (backend w) /\
  uplinkFrameChan (backend w') = uplinkFrameChan (backend w) /\
  subscribeEventChan (backend w') = subscribeEventChan (backend w) /\
  crcCheck (backend w') = crcCheck (backend w).
Proof.
  cbv zeta. unfold handleGatewayStats.
  destruct (proto_Unmarshal_GatewayStats bb) as [pl|e]; [|repeat split].
  unfold_M. cbn.
  destruct (chan_has_room (gatewayStatsChan (backend w))); repeat split.
Qed.

Lemma eventLoop_body_frame r w :
  let w' := world_of (eventLoop_body' r w) in
  heap w' = heap w /\
  commandSock (backend w') = commandSock (backend w) /\
  commandMux (backend w') = commandMux (backend w) /\
  eventSock (backend w') = eventSock (backend w) /\
  downlinkTXAckChan (backend w') = downlinkTXAckChan (backend w) /\
  subscribeEventChan (backend w') = subscribeEventChan (backend w) /\
  crcCheck (backend w') = crcCheck (backend w).
Proof.
  destruct r as [e|[|topic [|payload [|f2 frames]]]|]; try (repeat split; fail).
  cbv zeta. unfold eventLoop_body, bind.
  destruct (string_of_bytes topic =? "up")%string.
  { pose proof (handleUplinkFrame_frame payload w) as (H1 & H2 & H3 & H4 & H5 & _ & H7 & H8).
    destruct (handleUplinkFrame' payload w) as [[e|] w'| w'|on w'];
      simpl in *; repeat split; assumption. }
  destruct (string_of_bytes topic =? "stats")%string.
  { pose proof (handleGatewayStats_frame payload w) as (H1 & H2 & H3 & H4 & H5 & _ & H7 & H8).
    destruct (handleGatewayStats' payload w) as [[e|] w'| w'|on w'];
      simpl in *; repeat split; assumption. }
  repeat split.
Qed.

(** X15: the event loop, over any messages and whatever its outcome, never
    touches the heap, the command socket, the mutex, the acknowledgement
    channel or the subscribe channel, and never changes the CRC setting or the
    event socket's state: it only places on the uplink and stats channels and
    writes the log. *)
Theorem eventLoop_frame inputs w :
  let w' := world_of (eventLoop' inputs w) in
  heap w' = heap w /\
  commandSock (backend w') = commandSock (backend w) /\
  commandMux (backend w') = commandMux (backend w) /\
  eventSock (backend w') = eventSock (backend w) /\
  downlinkTXAckChan (backend w') = downlinkTXAckChan (backend w) /\
  subscribeEventChan (backend w') = subscribeEventChan (backend w) /\
  crcCheck (backend w') = crcCheck (backend w).
Proof.
  cbv zeta. revert w. induction inputs as [|r rest IH]; intros w.
  - repeat split.
  - rewrite eventLoop_cons.
    pose proof (eventLoop_body_frame r w) as Hb. cbv zeta in Hb.
    destruct (eventLoop_body' r w) as [[] w1|w1|on w1]; simpl in Hb; try exact Hb.
    destruct Hb as (<- & <- & <- & <- & <- & <- & <-). apply IH.
Qed.

(** X16: [SendDownlinkFrame], whatever its outcome, never touches the event
    socket, the uplink channel, the stats channel or the subscribe channel,
    never changes the CRC setting, and only ever adds to the log. *)
Theorem SendDownlinkFrame_frame x pl w :
  let w' := world_of (SendDownlinkFrame' x pl w) in
  eventSock (backend w') = eventSock (backend w) /\
  uplinkFrameChan (backend w') = uplinkFrameChan (backend w) /\
  gatewayStatsChan (backend w') = gatewayStatsChan (backend w) /\
  subscribeEventChan (backend w') = subscribeEventChan (backend w) /\
  crcCheck (backend w') = crcCheck (backend w) /\
  exists entries, logs w' = logs w ++ entries.
Proof.
  cbv zeta.
  destruct (SendDownlinkFrame_after_request x pl w) as (_ & _ & -> & -> & -> & -> & ->).
  destruct (commandRequest_frame x "down" (Some pl) (at_request pl w))
    as (_ & Hl & _ & -> & -> & -> & -> & ->).
  repeat split.
  rewrite SendDownlinkFrame_unfold.
  destruct (commandRequest' x "down" (Some pl) (at_request pl w))
    as [[bb [e|]] w2|w2|on w2]; simpl in Hl |- *.
  - rewrite Hl. eexists [_; _]. now rewrite <- app_assoc.
  - destruct (length bb =? 0)%nat; [simpl; rewrite Hl; now eexists [_]|].
    destruct (proto_Unmarshal_DownlinkTXAck bb); [|simpl; rewrite Hl; now eexists [_]].
    destruct (chan_has_room (downlinkTXAckChan (backend w2)));
      simpl; rewrite Hl; now eexists [_].
  - rewrite Hl. now eexists [_].
  - rewrite Hl. now eexists [_].
Qed.

(** ** The identifier *)

Lemma copy_array_length n src : length (copy_array n src) = n.
Proof.
  unfold copy_array.
  rewrite length_app, length_take, length_replicate. lia.
Qed.

(** X18: whatever the reply, the identifier [getGatewayID] returns has
    exactly 8 bytes: all zero when the request failed, the first 8 bytes of
    the reply when it has that many, the reply followed by zeros when it is
    shorter. *)
Theorem getGatewayID_identifier x w gid e w' :
  getGatewayID' x w = Ret (gid, e) w' ->
  length gid = 8%nat /\
  (e <> None -> gid = replicate 8 x00) /\
  (e = None ->
   exists m, reply x = RecvMsg m /\
     ((8 <= length (Msg_Bytes m))%nat -> gid = take 8 (Msg_Bytes m)) /\
     ((length (Msg_Bytes m) <= 8)%nat ->
      gid = Msg_Bytes m ++ replicate (8 - length (Msg_Bytes m)) x00)).
Proof.
  rewrite getGatewayID_unfold.
  destruct (commandMux (backend w)) eqn:Hm.
  { now rewrite (commandRequest_locked x "gateway_id" None w Hm). }
  assert (He : encoded' (heap w) None = Ok []) by reflexivity.
  destruct (send_error x) as [e0|] eqn:Hs.
  { rewrite (commandRequest_send_error x "gateway_id" None w [] e0 Hm He Hs).
    intros Heq. injection Heq as <- <- _. repeat split; try reflexivity.
    intros H. discriminate. }
  destruct (reply x) as [e0|m|] eqn:Hr.
  - rewrite (commandRequest_recv_error x "gateway_id" None w [] e0 Hm He Hs Hr).
    intros Heq. injection Heq as <- <- _. repeat split; try reflexivity.
    intros H. discriminate.
  - rewrite (commandRequest_reply x "gateway_id" None w [] m Hm He Hs Hr).
    intros Heq. injection Heq as <- <- _.
    split; [apply copy_array_length|]. split; [intros H; now destruct H|].
    intros _. exists m. split; [reflexivity|]. unfold copy_array, EUI64_len. split.
    + intros Hlen. replace (8 - length (Msg_Bytes m))%nat with 0%nat by lia.
      apply app_nil_r.
    + intros Hlen. now rewrite take_ge by lia.
  - now rewrite (commandRequest_silent x "gateway_id" None w [] Hm He Hs Hr).
Qed.

(** ** Further properties of [handleUplinkFrame] *)

(** X19: an uplink frame without a LoRa object (FSK modulation, no
    modulation info, no TxInfo) is forwarded exactly as decoded. *)
Theorem handleUplinkFrame_without_lora bb w pl :
  proto_Unmarshal_UplinkFrame bb = Ok pl ->
  UplinkTXInfo.GetLoraModulationInfo (UplinkFrame.GetTxInfo pl) = None ->
  crcCheck (backend w) &&
    negb (UplinkRXInfo.GetCrcStatus (UplinkFrame.GetRxInfo pl) =? CRCStatus_CRC_OK) = false ->
  chan_has_room (uplinkFrameChan (backend w)) = true ->
  exists w',
    handleUplinkFrame' bb w = Ret None w' /\
    uplinkFrameChan (backend w') = chan_put pl (uplinkFrameChan (backend w)).
Proof.
  intros H Hn Hc Hroom.
  rewrite (handleUplinkFrame_forwarded bb w pl H Hc), Hroom.
  unfold delivered. rewrite Hn. eexists. split; reflexivity.
Qed.

(** X20: the uplink rebasing drops the remainder: for a decoded bandwidth
    [W >= 0] the delivered bandwidth [d] satisfies
    [1000 * d <= W < 1000 * d + 1000], so it is 0 for every [W] below 1000,
    and multiplying it back gives [W] again exactly when 1000 divides [W]. *)
Theorem uplink_bandwidth_truncates pl m :
  UplinkTXInfo.GetLoraModulationInfo (UplinkFrame.GetTxInfo pl) = Some m ->
  is_uint32 (LoRaModulationInfo.Bandwidth m) ->
  let W := LoRaModulationInfo.Bandwidth m in
  exists m',
    UplinkTXInfo.GetLoraModulationInfo (UplinkFrame.GetTxInfo (delivered pl)) = Some m' /\
    1000 * LoRaModulationInfo.Bandwidth m' <= W < 1000 * LoRaModulationInfo.Bandwidth m' + 1000 /\
    (W < 1000 -> LoRaModulationInfo.Bandwidth m' = 0) /\
    (uint32_mul (LoRaModulationInfo.Bandwidth m') 1000 = W <-> (1000 | W)).
Proof.
  intros Hm [H0 H1] W.
  destruct (delivered_lora pl m Hm) as (Hd & _ & _).
  eexists. split; [exact Hd|]. cbn. fold W. unfold uint32_div.
  pose proof (Z.div_mod W 1000 ltac:(discriminate)) as Hdm.
  pose proof (Z.mod_pos_bound W 1000 ltac:(reflexivity)) as Hb.
  split; [lia|]. split.
  - intros Hlt. apply Z.div_small. split; assumption.
  - unfold uint32_mul, uint32_modulus in *.
    rewrite Z.mod_small by lia. split.
    + intros Heq. exists (W / 1000). lia.
    + intros [k Hk]. rewrite Hk, Z.div_mul by discriminate. reflexivity.
Qed.

(** X21: with CRC checking enabled, a decodable frame whose status is CRC_OK
    is forwarded like any frame when checking is off, and a frame that
    carries no RxInfo at all is dropped (its status reads as NO_CRC). *)
Theorem handleUplinkFrame_crc_checked bb w pl :
  proto_Unmarshal_UplinkFrame bb = Ok pl ->
  crcCheck (backend w) = true ->
  (UplinkRXInfo.GetCrcStatus (UplinkFrame.GetRxInfo pl) = CRCStatus_CRC_OK ->
   if chan_has_room (uplinkFrameChan (backend w))
   then exists w', handleUplinkFrame' bb w = Ret None w' /\
                   uplinkFrameChan (backend w') =
                     chan_put (delivered pl) (uplinkFrameChan (backend w))
   else exists w', handleUplinkFrame' bb w =
                     Park (OnSend (PendUplinkFrame (delivered pl))) w' /\
                   backend w' = backend w) /\
  (UplinkFrame.RxInfo pl = None ->
   exists w', handleUplinkFrame' bb w = Ret None w' /\ backend w' = backend w).
Proof.
  intros H Hc. split.
  - intros Hok.
    rewrite (handleUplinkFrame_forwarded bb w pl H) by now rewrite Hc, Hok.
    destruct (chan_has_room (uplinkFrameChan (backend w)));
      eexists; (split; [reflexivity|]); reflexivity.
  - intros Hrx. eexists. split.
    + apply handleUplinkFrame_dropped; [exact H|].
      unfold UplinkFrame.GetRxInfo. now rewrite Hc, Hrx.
    + reflexivity.
Qed.

(** ** The channels over the life of a backend *)

Lemma put_or_same_within {A : Type} (c c' : chan A) :
  put_or_same c c' -> chan_within_capacity c -> chan_within_capacity c'.
Proof.
  intros [->|(v & Hroom & ->)] [Hcap Hlen]; [now split|].
  unfold chan_has_room in Hroom. apply Nat.ltb_lt in Hroom.
  split; [exact Hcap|]. cbn. rewrite length_app. cbn. lia.
Qed.

Lemma chan_take_within {A : Type} (c c' : chan A) v :
  chan_take c = Some (v, c') -> chan_within_capacity c -> chan_within_capacity c'.
Proof.
  unfold chan_take. destruct (buf c) as [|v0 rest] eqn:Hb; [discriminate|].
  intros Heq [Hcap Hlen]. injection Heq as _ <-.
  split; [exact Hcap|]. cbn. rewrite Hb in Hlen. cbn in Hlen. lia.
Qed.

Lemma SendDownlinkFrame_downlinkTXAckChan x pl w :
  put_or_same (downlinkTXAckChan (backend w))
    (downlinkTXAckChan (backend (world_of (SendDownlinkFrame' x pl w)))).
Proof.
  rewrite SendDownlinkFrame_unfold.
  destruct (commandRequest_frame x "down" (Some pl) (at_request pl w))
    as (_ & _ & Hack & _).
  change (downlinkTXAckChan (backend (at_request pl w)))
    with (downlinkTXAckChan (backend w)) in Hack.
  destruct (commandRequest' x "down" (Some pl) (at_request pl w))
    as [[bb [e|]] w2|w2|on w2]; simpl in Hack |- *; rewrite <- Hack;
    try (now left).
  destruct (length bb =? 0)%nat; [now left|].
  destruct (proto_Unmarshal_DownlinkTXAck bb) as [ack|e]; [|now left].
  destruct (chan_has_room (downlinkTXAckChan (backend w2))) eqn:Hroom; [|now left].
  right. exists ack. split; [exact Hroom|reflexivity].
Qed.

Lemma handleUplinkFrame_uplinkFrameChan bb w :
  put_or_same (uplinkFrameChan (backend w))
    (uplinkFrameChan (backend (world_of (handleUplinkFrame' bb w)))).
Proof.
  destruct (proto_Unmarshal_UplinkFrame bb) as [pl|e] eqn:H.
  2:{ rewrite (handleUplinkFrame_undecodable bb w e H). now left. }
  destruct (crcCheck (backend w) &&
            negb (UplinkRXInfo.GetCrcStatus (UplinkFrame.GetRxInfo pl) =? CRCStatus_CRC_OK))
    eqn:Hc.
  - rewrite (handleUplinkFrame_dropped bb w pl H Hc). now left.
  - rewrite (handleUplinkFrame_forwarded bb w pl H Hc).
    destruct (chan_has_room (uplinkFrameChan (backend w))) eqn:Hroom; [|now left].
    right. exists (delivered pl). split; [exact Hroom|reflexivity].
Qed.

Lemma handleGatewayStats_gatewayStatsChan bb w :
  put_or_same (gatewayStatsChan (backend w))
    (gatewayStatsChan (backend (world_of (handleGatewayStats' bb w)))).
Proof.
  unfold handleGatewayStats.
  destruct (proto_Unmarshal_GatewayStats bb) as [pl|e]; [|now left].
  unfold_M. cbn.
  destruct (chan_has_room (gatewayStatsChan (backend w))) eqn:Hroom; [|now left].
  right. exists pl. split; [exact Hroom|reflexivity].
Qed.

Lemma eventLoop_body_channels r w :
  let w' := world_of (eventLoop_body' r w) in
  put_or_same (uplinkFrameChan (backend w)) (uplinkFrameChan (backend w')) /\
  put_or_same (gatewayStatsChan (backend w)) (gatewayStatsChan (backend w')).
Proof.
  destruct r as [e|[|topic [|payload [|f2 frames]]]|];
    try (split; now left).
  cbv zeta. unfold eventLoop_body, bind.
  destruct (string_of_bytes topic =? "up")%string.
  { pose proof (handleUplinkFrame_uplinkFrameChan payload w) as Hu.
    pose proof (handleUplinkFrame_frame payload w) as (_ & _ & _ & _ & _ & Hs & _).
    destruct (handleUplinkFrame' payload w) as [[e|] w'| w'|on w'];
      simpl in *; (split; [exact Hu|rewrite Hs; now left]). }
  destruct (string_of_bytes topic =? "stats")%string.
  { pose proof (handleGatewayStats_gatewayStatsChan payload w) as Hs.
    pose proof (handleGatewayStats_frame payload w) as (_ & _ & _ & _ & _ & Hu & _).
    destruct (handleGatewayStats' payload w) as [[e|] w'| w'|on w'];
      simpl in *; (split; [rewrite Hu; now left|exact Hs]). }
  split; now left.
Qed.

Ltac solve_chan :=
  first [ assumption
        | eapply put_or_same_within;
          [right; eexists; split; [eassumption|reflexivity]|assumption]
        | eapply put_or_same_within; [eassumption|assumption]
        | eapply chan_take_within; eassumption ].

Ltac solve_within :=
  unfold within_capacity; cbn;
  split; [solve_chan|split; [solve_chan|split; solve_chan]].

Lemma run_call_within_capacity c w :
  within_capacity (backend w) ->
  within_capacity (backend (world_of (run_call' c w))).
Proof.
  intros (Ha & Hu & Hs & Hsub).
  destruct c; try exact (conj Ha (conj Hu (conj Hs Hsub))).
  - assert (Hw : world_of (run_call' (CallSendDownlinkFrame x pl) w) =
                 world_of (SendDownlinkFrame' x pl w)).
    { unfold run_call, bind. now destruct (SendDownlinkFrame' x pl w). }
    rewrite Hw.
    destruct (SendDownlinkFrame_after_request x pl w) as (_ & _ & _ & H2 & H3 & H4 & _).
    destruct (commandRequest_frame x "down" (Some pl) (at_request pl w))
      as (_ & _ & _ & H2' & H3' & H4' & _).
    pose proof (SendDownlinkFrame_downlinkTXAckChan x pl w) as H1.
    unfold within_capacity. rewrite H2, H3, H4, H2', H3', H4'.
    split; [exact (put_or_same_within _ _ H1 Ha)|].
    split; [exact Hu|]. split; [exact Hs|exact Hsub].
  - destruct (eventLoop_body_frame r w) as (_ & _ & _ & _ & H1 & H4 & _).
    destruct (eventLoop_body_channels r w) as (H2 & H3).
    unfold within_capacity, run_call. rewrite H1, H4.
    split; [exact Ha|]. split; [exact (put_or_same_within _ _ H2 Hu)|].
    split; [exact (put_or_same_within _ _ H3 Hs)|exact Hsub].
Qed.

Lemma step_within_capacity p p' :
  step' p p' ->
  within_capacity (backend (world p)) -> within_capacity (backend (world p')).
Proof.
  intros Hstep Hin.
  destruct Hstep as [c w ps w' Hc|c w ps w' Hc|c w ps q w' Hc|c w ps w' Hc
                    |c w ps w' Hc|w ps1 q ps2 b' Hq|w ps v c' Ht|w ps v c' Ht
                    |w ps v c' Ht|w ps v c' Ht|w ps h'];
    simpl in *;
    try (pose proof (run_call_within_capacity c w Hin) as H;
         rewrite Hc in H; exact H);
    try (destruct Hin as (Ha & Hu & Hs & Hsub); solve_within; fail).
  - destruct Hin as (Ha & Hu & Hs & Hsub).
    destruct q as [v|v|v|v]; simpl in Hq;
      match type of Hq with
      | (if ?c then _ else _) = _ => destruct c eqn:Hroom; [|discriminate]
      end; injection Hq as <-; solve_within.
Qed.

(** X22: over the whole life of a backend each of its four channels keeps
    capacity one and never holds more than one value: a send goes through
    only when the previous value has been taken. *)
Theorem channels_hold_at_most_one conf io w0 p :
  lives proto_Marshal proto_Unmarshal_DownlinkTXAck proto_Unmarshal_UplinkFrame
    proto_Unmarshal_GatewayStats conf io w0 p ->
  let b := backend (world p) in
  (length (buf (downlinkTXAckChan b)) <= 1)%nat /\
  (length (buf (uplinkFrameChan b)) <= 1)%nat /\
  (length (buf (gatewayStatsChan b)) <= 1)%nat /\
  (length (buf (subscribeEventChan b)) <= 1)%nat /\
  cap (downlinkTXAckChan b) = 1%nat /\ cap (uplinkFrameChan b) = 1%nat /\
  cap (gatewayStatsChan b) = 1%nat /\ cap (subscribeEventChan b) = 1%nat.
Proof.
  intros (w1 & Hnew & Hlife).
  assert (H : within_capacity (backend (world p))).
  { revert p Hlife. apply rtc_ind_r.
    - destruct (NewBackend_ready conf io w0 w1 Hnew)
        as (_ & _ & _ & _ & Ha & Hu & Hs & _).
      destruct (NewBackend_subscribeEventChan conf io w0 w1 Hnew) as (m & _ & Hsub).
      unfold within_capacity. cbn. rewrite Ha, Hu, Hs, Hsub.
      repeat split; cbn; lia.
    - intros p p' _ Hstep IH. exact (step_within_capacity p p' Hstep IH). }
  destruct H as ((Ca & La) & (Cu & Lu) & (Cs & Ls) & (Csub & Lsub)).
  cbv zeta. rewrite Ca in La. rewrite Cu in Lu. rewrite Cs in Ls. rewrite Csub in Lsub.
  repeat split; assumption.
Qed.

End Properties.

(** ** Concurrent command requests *)

Section ConcurrentProperties.

#[local] Set Default Proof Using "Type".

Import Concurrent.

Variable proto_Marshal :
  DownlinkFrame.t -> option LoRaModulationInfo.t -> result bytes.

Abbreviation cstep' := (cstep proto_Marshal).

Ltac lookups :=
  repeat match goal with
         | H : <[_ := _]> _ !! _ = Some _ |- _ =>
             rewrite lookup_insert in H; case_decide; simplify_eq
         end.

Lemma cstep_invariant c c' :
  cstep' c c' ->
  exclusive c /\ unlocked_is_free c /\ serial (wire c) /\ awaited c ->
  exclusive c' /\ unlocked_is_free c' /\ serial (wire c') /\ awaited c'.
Proof.
  intros Hstep (Hex & Hfree & Hser & Haw).
  unfold exclusive, unlocked_is_free, awaited in *.
  destruct Hstep as [w ths tr t command v Hnone
                    |w ths tr t command v Ht Hmux
                    |w ths tr t command pl e Ht Hmar
                    |w ths tr t command v bb Ht Hmar
                    |w ths tr t msg e Ht
                    |w ths tr t msg Ht
                    |w ths tr t e Ht
                    |w ths tr t m Ht
                    |w ths tr t r Ht
                    |w w' ths tr Hmux Hsock]; simpl in *.
  - (* call *)
    repeat split; try assumption.
    + intros t1 t2 p1 p2 ? ? ? ?. lookups; try discriminate. eauto.
    + intros Hm t' p ?. lookups; [reflexivity|eauto].
    + intros t' ?. lookups. eauto.
  - (* lock *)
    repeat split; try assumption.
    + intros t1 t2 p1 p2 H1 H2 ? ?.
      rewrite lookup_insert in H1, H2. repeat case_decide; simplify_eq; try reflexivity.
      all: match goal with
           | H : _ !! _ = Some ?p, L : holds_lock ?p = true |- _ =>
               specialize (Hfree Hmux _ _ H); congruence
           end.
    + discriminate.
    + intros t' ?. lookups. eauto.
  - (* marshal error *)
    repeat split; try assumption.
    + intros t1 t2 p1 p2 H1 H2 ? ?.
      rewrite lookup_insert in H1, H2. repeat case_decide; simplify_eq; try reflexivity.
      * symmetry. eapply Hex; eauto.
      * eapply Hex; eauto.
      * eapply Hex; eauto.
    + intros Hm t' p ?. specialize (Hfree Hm _ _ Ht). discriminate.
    + intros t' ?. lookups. eauto.
  - (* marshal *)
    repeat split; try assumption.
    + intros t1 t2 p1 p2 H1 H2 ? ?.
      rewrite lookup_insert in H1, H2. repeat case_decide; simplify_eq; try reflexivity.
      * symmetry. eapply Hex; eauto.
      * eapply Hex; eauto.
      * eapply Hex; eauto.
    + intros Hm t' p ?. specialize (Hfree Hm _ _ Ht). discriminate.
    + intros t' ?. lookups. eauto.
  - (* send error *)
    repeat split; try assumption.
    + intros t1 t2 p1 p2 H1 H2 ? ?.
      rewrite lookup_insert in H1, H2. repeat case_decide; simplify_eq; try reflexivity.
      * symmetry. eapply Hex; eauto.
      * eapply Hex; eauto.
      * eapply Hex; eauto.
    + intros Hm t' p ?. specialize (Hfree Hm _ _ Ht). discriminate.
    + intros t' ?. lookups. eauto.
  - (* send *)
    repeat split.
    + intros t1 t2 p1 p2 H1 H2 ? ?.
      rewrite lookup_insert in H1, H2. repeat case_decide; simplify_eq; try reflexivity.
      * symmetry. eapply Hex; eauto.
      * eapply Hex; eauto.
      * eapply Hex; eauto.
    + intros Hm t' p ?. specialize (Hfree Hm _ _ Ht). discriminate.
    + now apply serial_request.
    + intros t' H1. rewrite lookup_insert in H1. case_decide; simplify_eq.
      * eauto.
      * exfalso. match goal with H : _ <> _ |- _ => apply H end.
        symmetry. eapply Hex; eauto.
  - (* recv error *)
    repeat split; try assumption.
    + intros t1 t2 p1 p2 H1 H2 ? ?.
      rewrite lookup_insert in H1, H2. repeat case_decide; simplify_eq; try reflexivity.
      * symmetry. eapply Hex; eauto.
      * eapply Hex; eauto.
      * eapply Hex; eauto.
    + intros Hm t' p ?. specialize (Hfree Hm _ _ Ht). discriminate.
    + intros t' ?. lookups. eauto.
  - (* recv *)
    repeat split.
    + intros t1 t2 p1 p2 H1 H2 ? ?.
      rewrite lookup_insert in H1, H2. repeat case_decide; simplify_eq; try reflexivity.
      * symmetry. eapply Hex; eauto.
      * eapply Hex; eauto.
      * eapply Hex; eauto.
    + intros Hm t' p ?. specialize (Hfree Hm _ _ Ht). discriminate.
    + destruct (Haw t Ht) as (tr0 & m0 & ->).
      rewrite <- app_assoc. simpl. now apply serial_reply.
    + intros t' H1. rewrite lookup_insert in H1. case_decide; simplify_eq.
      exfalso. match goal with H : _ <> _ |- _ => apply H end.
      symmetry. eapply Hex; eauto.
  - (* unlock *)
    repeat split; try assumption.
    + intros t1 t2 p1 p2 H1 H2 ? ?.
      rewrite lookup_insert in H1, H2. repeat case_decide; simplify_eq; try discriminate.
      eapply Hex; eauto.
    + intros _ t' p H1. rewrite lookup_insert in H1. case_decide; simplify_eq.
      * reflexivity.
      * destruct (holds_lock p) eqn:Hp; [|reflexivity].
        exfalso. match goal with H : _ <> _ |- _ => apply H end.
        symmetry. eapply Hex; eauto.
    + intros t' ?. lookups. eauto.
  - (* elsewhere *)
    repeat split; try assumption.
    intros Hm. apply Hfree. congruence.
Qed.

(** A goroutine alone goes through these steps to what [commandRequest]
    returns. *)
Lemma commandRequest_as_steps x command v w r w' t tr :
  commandRequest proto_Marshal x command v w = Ret r w' ->
  exists tr',
    rtc cstep' (mkConf w {[t := AtLock command v]} tr)
               (mkConf w' {[t := Returned r]} tr').
Proof.
  destruct (commandMux (backend w)) eqn:Hm.
  { now rewrite (commandRequest_locked proto_Marshal x command v w Hm). }
  assert (Hback :
            set_backend
              (set_commandMux false (backend (set_backend (set_commandMux true (backend w)) w)))
              (set_backend (set_commandMux true (backend w)) w) = w).
  { destruct w as [[] ? ?]; simpl in *; subst; reflexivity. }
  assert (Hback' : forall msg,
            set_backend
              (set_commandMux false
                 (backend (wrote msg (set_backend (set_commandMux true (backend w)) w))))
              (wrote msg (set_backend (set_commandMux true (backend w)) w))
            = wrote msg w).
  { intros msg. destruct w as [[] ? ?]; simpl in *; subst; reflexivity. }
  assert (Hlock := cstep_lock proto_Marshal w {[t := AtLock command v]} tr t command v
                     (lookup_singleton_eq _ _) Hm).
  destruct (encoded proto_Marshal (heap w) v) as [bb|e] eqn:He.
  2:{ rewrite (commandRequest_marshal_error proto_Marshal x command v w e Hm He).
      intros Heq. injection Heq as <- <-. exists tr.
      destruct v as [pl|]; [|discriminate].
      eapply rtc_l; [exact Hlock|].
      eapply rtc_l.
      { eapply cstep_marshal_error; [apply lookup_insert_eq|exact He]. }
      eapply rtc_l.
      { apply cstep_unlock. apply lookup_insert_eq. }
      rewrite !insert_insert_eq, insert_singleton_eq, Hback. apply rtc_refl. }
  destruct (send_error x) as [e|] eqn:Hs.
  { rewrite (commandRequest_send_error proto_Marshal x command v w bb e Hm He Hs).
    intros Heq. injection Heq as <- <-. exists tr.
    eapply rtc_l; [exact Hlock|].
    eapply rtc_l.
    { eapply cstep_marshal; [apply lookup_insert_eq|exact He]. }
    eapply rtc_l.
    { eapply (cstep_send_error _ _ _ _ _ _ e). apply lookup_insert_eq. }
    eapply rtc_l.
    { apply cstep_unlock. apply lookup_insert_eq. }
    rewrite !insert_insert_eq, insert_singleton_eq, Hback. apply rtc_refl. }
  destruct (reply x) as [e|m|] eqn:Hr.
  - rewrite (commandRequest_recv_error proto_Marshal x command v w bb e Hm He Hs Hr).
    intros Heq. injection Heq as <- <-. eexists.
    eapply rtc_l; [exact Hlock|].
    eapply rtc_l.
    { eapply cstep_marshal; [apply lookup_insert_eq|exact He]. }
    eapply rtc_l.
    { eapply cstep_send. apply lookup_insert_eq. }
    eapply rtc_l.
    { eapply (cstep_recv_error _ _ _ _ _ e). apply lookup_insert_eq. }
    eapply rtc_l.
    { apply cstep_unlock. apply lookup_insert_eq. }
    rewrite !insert_insert_eq, insert_singleton_eq, Hback'. apply rtc_refl.
  - rewrite (commandRequest_reply proto_Marshal x command v w bb m Hm He Hs Hr).
    intros Heq. injection Heq as <- <-. eexists.
    eapply rtc_l; [exact Hlock|].
    eapply rtc_l.
    { eapply cstep_marshal; [apply lookup_insert_eq|exact He]. }
    eapply rtc_l.
    { eapply cstep_send. apply lookup_insert_eq. }
    eapply rtc_l.
    { eapply (cstep_recv _ _ _ _ _ m). apply lookup_insert_eq. }
    eapply rtc_l.
    { apply cstep_unlock. apply lookup_insert_eq. }
    rewrite !insert_insert_eq, insert_singleton_eq, Hback'. apply rtc_refl.
  - now rewrite (commandRequest_silent proto_Marshal x command v w bb Hm He Hs Hr).
Qed.

(** C9: however the actions of any number of goroutines in [commandRequest]
    interleave, at most one goroutine is between [Lock] and [Unlock], so at
    most one request is written and not yet answered; the messages on the
    command socket form a sequence of exchanges in which each reply is read by
    the goroutine that wrote the request just before it; and a goroutine
    waiting for its reply is the one that wrote the last message. *)
Theorem commandRequest_single_flight w0 c :
  rtc cstep' (mkConf w0 ∅ []) c ->
  exclusive c /\
  (forall t1 t2,
     threads c !! t1 = Some AtRecv -> threads c !! t2 = Some AtRecv -> t1 = t2) /\
  serial (wire c) /\
  awaited c.
Proof.
  intros Hrun.
  assert (H : exclusive c /\ unlocked_is_free c /\ serial (wire c) /\ awaited c).
  { revert c Hrun. apply rtc_ind_r.
    - repeat split.
      + intros t1 t2 p1 p2 H. simpl in H. now rewrite lookup_empty in H.
      + intros _ t p H. simpl in H. now rewrite lookup_empty in H.
      + constructor.
      + intros t H. simpl in H. now rewrite lookup_empty in H.
    - intros c c' _ Hstep IH. exact (cstep_invariant c c' Hstep IH). }
  destruct H as (Hex & _ & Hser & Haw).
  repeat split; try assumption.
  intros t1 t2 H1 H2. exact (Hex t1 t2 AtRecv AtRecv H1 H2 eq_refl eq_refl).
Qed.

(** X23: the mutex is never leaked and never shared: in every reachable
    configuration of goroutines running [commandRequest] on a backend whose
    mutex was free, the mutex is held exactly when some goroutine stands
    between [Lock] and the deferred [Unlock]; once every goroutine has
    returned, on whatever path, the mutex is free. *)
Theorem commandMux_held_by_a_goroutine w0 c :
  commandMux (backend w0) = false ->
  rtc cstep' (mkConf w0 ∅ []) c ->
  (commandMux (backend (shared c)) = true <->
   exists t p, threads c !! t = Some p /\ holds_lock p = true).
Proof.
  intros H0 Hrun.
  assert (H : (exclusive c /\ unlocked_is_free c /\ serial (wire c) /\ awaited c) /\
              (commandMux (backend (shared c)) = true ->
               exists t p, threads c !! t = Some p /\ holds_lock p = true)).
  { revert c Hrun. apply rtc_ind_r.
    - split.
      + repeat split.
        * intros t1 t2 p1 p2 H. simpl in H. now rewrite lookup_empty in H.
        * intros _ t p H. simpl in H. now rewrite lookup_empty in H.
        * constructor.
        * intros t H. simpl in H. now rewrite lookup_empty in H.
      + simpl. rewrite H0. discriminate.
    - intros c c' _ Hstep [IH1 IH2].
      split; [exact (cstep_invariant c c' Hstep IH1)|].
      destruct Hstep as [w ths tr t command v Hnone
                        |w ths tr t command v Ht Hmux
                        |w ths tr t command pl e Ht Hmar
                        |w ths tr t command v bb Ht Hmar
                        |w ths tr t msg e Ht
                        |w ths tr t msg Ht
                        |w ths tr t e Ht
                        |w ths tr t m Ht
                        |w ths tr t r Ht
                        |w w' ths tr Hmux Hsock]; simpl in *;
        try (intros _; exists t; eexists; split; [apply lookup_insert_eq|reflexivity]).
      + intros Hm. destruct (IH2 Hm) as (t0 & p0 & Hp0 & Hl0).
        exists t0, p0. split; [|exact Hl0].
        rewrite lookup_insert_ne; [exact Hp0|]. intros ->. congruence.
      + discriminate.
      + intros Hm. apply IH2. congruence. }
  destruct H as ((_ & Hfree & _ & _) & Hheld).
  split; [exact Hheld|].
  intros (t & p & Hp & Hl).
  destruct (commandMux (backend (shared c))) eqn:Hm; [reflexivity|].
  rewrite (Hfree Hm t p Hp) in Hl. discriminate.
Qed.

End ConcurrentProperties.

(** * The properties on sample inputs *)

Import Sample.

(** C1 at work: bandwidth 125 leaves as 125000, in the caller's object and on
    the wire. *)
Lemma SendDownlinkFrame_wire_bandwidth_witness :
  let w := a_world false 125 in
  let w' := world_of (Sample.SendDownlinkFrame (answers [[x00]]) lora_frame w) in
  heap w' = <[1%positive := LoRaModulationInfo.mk 125000 7 "4/5" true]> (heap w) /\
  sent (commandSock (backend w')) =
    [[bytes_of_string "down"; [x01; x02; x00; x01; xe8; x48]]].
Proof.
  destruct (SendDownlinkFrame_wire_bandwidth Marshal Unmarshal_DownlinkTXAck
              (answers [[x00]]) lora_frame (a_world false 125) 1%positive
              (LoRaModulationInfo.mk 125 7 "4/5" true) eq_refl eq_refl)
    as (H1 & _ & H3 & _).
  split.
  - exact H1.
  - exact (H3 _ eq_refl eq_refl eq_refl).
Defined.

(** C1 as stated fails: bandwidth 4294968 is a [uint32], and what reaches the
    caller's object and the wire is 704, not 4294968000. *)
Lemma SendDownlinkFrame_bandwidth_wraps :
  let B := 4294968 in
  let w := a_world false B in
  let w' := world_of (Sample.SendDownlinkFrame (answers [[x00]]) lora_frame w) in
  is_uint32 B /\
  lora_object (heap w) lora_frame = Some (LoRaModulationInfo.mk B 7 "4/5" true) /\
  lora_object (heap w') lora_frame = Some (LoRaModulationInfo.mk 704 7 "4/5" true) /\
  sent (commandSock (backend w')) = [[bytes_of_string "down"; [x01; x02] ++ be32 704]] /\
  704 <> B * 1000.
Proof.
  repeat split; try reflexivity; discriminate.
Qed.

(** C10 at work: the reply has zero length, the call returns an error, and
    the caller's object keeps the rebased bandwidth. *)
Lemma SendDownlinkFrame_mutation_persists_witness :
  let w := a_world false 125 in
  let o := Sample.SendDownlinkFrame (answers []) lora_frame w in
  returned o =
    Some (Some (errors_New "no reply receieved, check concentratord logs for error")) /\
  heap (world_of o) !! 1%positive = Some (LoRaModulationInfo.mk 125000 7 "4/5" true) /\
  (forall l', l' <> 1%positive -> heap (world_of o) !! l' = heap w !! l').
Proof.
  split; [reflexivity|].
  exact (SendDownlinkFrame_mutation_persists Marshal Unmarshal_DownlinkTXAck
           (answers []) lora_frame (a_world false 125) 1%positive
           (LoRaModulationInfo.mk 125 7 "4/5" true) eq_refl eq_refl).
Defined.

(** C10 as stated fails: with bandwidth 5000000 the call returns (an error,
    the reply being empty) and the caller's object holds 705032704, not 1000
    times the original value. *)
Lemma SendDownlinkFrame_mutation_wraps :
  let B := 5000000 in
  let w := a_world false B in
  let o := Sample.SendDownlinkFrame (answers []) lora_frame w in
  is_uint32 B /\
  lora_object (heap w) lora_frame = Some (LoRaModulationInfo.mk B 7 "4/5" true) /\
  returned o =
    Some (Some (errors_New "no reply receieved, check concentratord logs for error")) /\
  lora_object (heap (world_of o)) lora_frame =
    Some (LoRaModulationInfo.mk 705032704 7 "4/5" true) /\
  705032704 <> 1000 * B.
Proof.
  repeat split; try reflexivity; discriminate.
Qed.

(** C4 at work, on a reply made of one empty frame. *)
Lemma SendDownlinkFrame_empty_reply_witness :
  let w := a_world false 125 in
  let o := Sample.SendDownlinkFrame (answers [[]]) lora_frame w in
  downlinkTXAckChan (backend (world_of o)) = downlinkTXAckChan (backend w) /\
  returned o =
    Some (Some (errors_New "no reply receieved, check concentratord logs for error")).
Proof.
  destruct (SendDownlinkFrame_empty_reply Marshal Unmarshal_DownlinkTXAck
              (answers [[]]) lora_frame (a_world false 125) [[]] eq_refl eq_refl)
    as (H1 & _ & _ & H4).
  split.
  - exact H1.
  - apply H4; [reflexivity|reflexivity|].
    exists ([x01; x02] ++ be32 125000). reflexivity.
Defined.

(** C6 at work: on an empty reply the error comes back to the caller, in a
    world where the request has been written; on a failure of [SendMulti] the
    process ends. *)
Lemma SendDownlinkFrame_empty_reply_returns_witness :
  let w := a_world false 125 in
  Sample.SendDownlinkFrame (answers [[]]) lora_frame w =
    Ret (Some (errors_New "no reply receieved, check concentratord logs for error"))
        (wrote [bytes_of_string "down"; [x01; x02] ++ be32 125000]
               (at_request lora_frame w)) /\
  exits (Sample.SendDownlinkFrame
           (mkExchange (Some "zmq4: no connections available"%string) (RecvMsg [[]]))
           lora_frame w) = true.
Proof.
  split.
  - destruct (SendDownlinkFrame_empty_reply_returns Marshal Unmarshal_DownlinkTXAck
                (answers [[]]) lora_frame (a_world false 125))
      as (H1 & _).
    exact (H1 ([x01; x02] ++ be32 125000) [[]] eq_refl eq_refl eq_refl eq_refl eq_refl).
  - destruct (SendDownlinkFrame_empty_reply_returns Marshal Unmarshal_DownlinkTXAck
                (mkExchange (Some "zmq4: no connections available"%string) (RecvMsg [[]]))
                lora_frame (a_world false 125))
      as (_ & [_ H2] & _).
    apply H2. split; [reflexivity|].
    right. exists ([x01; x02] ++ be32 125000). split; [reflexivity|].
    left. now eexists.
Defined.

(** C6 as stated fails: on a zero-length reply the call returns its error
    and the process has not exited. *)
Lemma empty_reply_does_not_exit :
  let o := Sample.SendDownlinkFrame (answers []) lora_frame (a_world false 125) in
  reply (answers []) = RecvMsg [] /\
  length (Msg_Bytes []) = 0%nat /\
  returned o =
    Some (Some (errors_New "no reply receieved, check concentratord logs for error")) /\
  exits o = false /\
  Forall (fun e => level e <> FatalLevel) (logs (world_of o)).
Proof.
  repeat split; try reflexivity.
  repeat constructor; discriminate.
Qed.

(** C3 at work: a frame with a bad CRC is dropped when checking is on and
    placed on the channel when it is off. *)
Lemma handleUplinkFrame_crc_gate_witness :
  let bb := byte_of_Z CRCStatus_BAD_CRC :: be32 125000 in
  (exists w', Sample.handleUplinkFrame bb (a_world true 0) = Ret None w' /\
              backend w' = backend (a_world true 0) /\
              heap w' = heap (a_world true 0)) /\
  (exists w', Sample.handleUplinkFrame bb (a_world false 0) = Ret None w' /\
              length (buf (uplinkFrameChan (backend w'))) = 1%nat).
Proof.
  intros bb. split.
  - destruct (handleUplinkFrame_crc_gate Unmarshal_UplinkFrame bb (a_world true 0) _ eq_refl)
      as (H1 & _).
    apply H1; [reflexivity|discriminate].
  - destruct (handleUplinkFrame_crc_gate Unmarshal_UplinkFrame bb (a_world false 0) _ eq_refl)
      as (_ & H2).
    destruct (H2 eq_refl) as (w' & Hw' & Hc).
    exists w'. split; [exact Hw'|]. rewrite Hc. reflexivity.
Defined.



(** C5 at work: an 8-byte reply is the identifier. *)
Lemma NewBackend_gateway_id_witness :
  let io := dials [[x01; x02; x03; x04; x05; x06; x07; x08]] in
  let o := Sample.NewBackend conf io (a_world true 0) in
  returned o = Some None /\
  sent (commandSock (backend (world_of o))) = [[bytes_of_string "gateway_id"; []]] /\
  hist (subscribeEventChan (backend (world_of o))) =
    [Subscribe.mk true [x01; x02; x03; x04; x05; x06; x07; x08]].
Proof.
  intros io o.
  destruct (NewBackend_gateway_id Marshal conf io (a_world true 0) eq_refl eq_refl eq_refl)
    as (_ & _ & H3).
  exact (H3 _ eq_refl eq_refl).
Defined.

(** C5 as stated fails: a reply of three bytes, and one of none, do not
    abort the initialization; the identifier is padded with zeros. *)
Lemma NewBackend_short_reply_accepted :
  let o3 := Sample.NewBackend conf (dials [[x01; x02; x03]]) (a_world true 0) in
  let o0 := Sample.NewBackend conf (dials []) (a_world true 0) in
  (length (Msg_Bytes [[x01; x02; x03]]) < 8)%nat /\
  returned o3 = Some None /\
  hist (subscribeEventChan (backend (world_of o3))) =
    [Subscribe.mk true [x01; x02; x03; x00; x00; x00; x00; x00]] /\
  returned o0 = Some None /\
  hist (subscribeEventChan (backend (world_of o0))) =
    [Subscribe.mk true [x00; x00; x00; x00; x00; x00; x00; x00]].
Proof.
  repeat split; try reflexivity. simpl. lia.
Qed.

(** C7 at work: an unknown topic. *)
Lemma eventLoop_skips_malformed_witness :
  let msg := [bytes_of_string "ack"; [x01]] in
  let w := a_world true 0 in
  exists w',
    Sample.eventLoop_body (RecvMsg msg) w = Ret tt w' /\
    backend w' = backend w /\
    heap w' = heap w /\
    Sample.eventLoop [RecvMsg msg; RecvError "closed"] w =
      Sample.eventLoop [RecvError "closed"] w'.
Proof.
  intros msg w.
  apply (eventLoop_skips_malformed Unmarshal_UplinkFrame Unmarshal_GatewayStats
           msg w [RecvError "closed"]).
  apply malformed_topic; discriminate.
Defined.

(** C8 at work: a backend is made, the loop forwards an uplink, the caller
    sends a downlink and closes; one subscribe event has ever been placed. *)
Lemma exactly_one_subscribe_event_witness :
  let io := dials [[x01; x02; x03; x04; x05; x06; x07; x08]] in
  let w0 := a_world true 125 in
  let w1 := world_of (Sample.NewBackend conf io w0) in
  let w2 := world_of (Sample.run_call (LoopTurn (RecvMsg [bytes_of_string "up";
                                                          x02 :: be32 125000])) w1) in
  let w3 := world_of (Sample.run_call
                        (CallSendDownlinkFrame (answers [[x00]]) lora_frame) w2) in
  let w4 := world_of (Sample.run_call CallClose w3) in
  Sample.lives conf io w0 (mkProcess w4 [] false) /\
  length (hist (uplinkFrameChan (backend w4))) = 1%nat /\
  length (hist (downlinkTXAckChan (backend w4))) = 1%nat /\
  closed (eventSock (backend w4)) = true /\
  hist (subscribeEventChan (backend w4)) =
    [Subscribe.mk true [x01; x02; x03; x04; x05; x06; x07; x08]].
Proof.
  intros io w0 w1 w2 w3 w4.
  assert (Hlives : Sample.lives conf io w0 (mkProcess w4 [] false)).
  { exists w1. split; [vm_compute; reflexivity|].
    eapply rtc_l.
    { apply (step_return _ _ _ _
               (LoopTurn (RecvMsg [bytes_of_string "up"; x02 :: be32 125000]))
               w1 [] w2).
      vm_compute; reflexivity. }
    eapply rtc_l.
    { apply (step_return _ _ _ _
               (CallSendDownlinkFrame (answers [[x00]]) lora_frame) w2 [] w3).
      vm_compute; reflexivity. }
    eapply rtc_l.
    { apply (step_return _ _ _ _ CallClose w3 [] w4). vm_compute; reflexivity. }
    apply rtc_refl. }
  split; [exact Hlives|].
  split; [vm_compute; reflexivity|].
  split; [vm_compute; reflexivity|].
  split; [vm_compute; reflexivity|].
  destruct (exactly_one_subscribe_event Marshal Unmarshal_DownlinkTXAck
              Unmarshal_UplinkFrame Unmarshal_GatewayStats conf io w0
              (mkProcess w4 [] false) Hlives)
    as (m & Hm & Hh & _).
  cbv in Hm. injection Hm as <-. exact Hh.
Defined.

(** C9 at work: two goroutines ask for the mutex; the first has its whole
    exchange before the second writes its request. *)
Lemma commandRequest_single_flight_witness :
  let msg := [bytes_of_string "down"; [x01; x02] ++ be32 125] in
  exists c,
    rtc (Concurrent.cstep Marshal)
        (Concurrent.mkConf (mkWorld (fresh_backend false) (lora_heap 125) []) ∅ []) c /\
    Concurrent.wire c =
      [Concurrent.Request 0%nat msg; Concurrent.Reply 0%nat [[x00]]; Concurrent.Request 1%nat msg] /\
    Concurrent.serial (Concurrent.wire c) /\
    Concurrent.exclusive c.
Proof.
  intros msg.
  cut (exists c,
         rtc (Concurrent.cstep Marshal)
             (Concurrent.mkConf (mkWorld (fresh_backend false) (lora_heap 125) []) ∅ []) c /\
         Concurrent.wire c =
           [Concurrent.Request 0%nat msg; Concurrent.Reply 0%nat [[x00]];
            Concurrent.Request 1%nat msg]).
  { intros (c & Hrun & Hw). exists c.
    destruct (commandRequest_single_flight Marshal _ c Hrun) as (Hex & _ & Hser & _).
    repeat split; assumption. }
  eexists. split.
  - eapply rtc_l.
    { apply (Concurrent.cstep_call _ _ _ _ 0%nat "down" (Some lora_frame)). reflexivity. }
    eapply rtc_l.
    { apply (Concurrent.cstep_call _ _ _ _ 1%nat "down" (Some lora_frame)). reflexivity. }
    eapply rtc_l.
    { apply (Concurrent.cstep_lock _ _ _ _ 0%nat "down" (Some lora_frame)); reflexivity. }
    eapply rtc_l.
    { apply (Concurrent.cstep_marshal _ _ _ _ 0%nat "down" (Some lora_frame)
               ([x01; x02] ++ be32 125)); reflexivity. }
    eapply rtc_l.
    { apply (Concurrent.cstep_send _ _ _ _ 0%nat msg). reflexivity. }
    eapply rtc_l.
    { apply (Concurrent.cstep_recv _ _ _ _ 0%nat [[x00]]). reflexivity. }
    eapply rtc_l.
    { apply (Concurrent.cstep_unlock _ _ _ _ 0%nat ([x00], None)). reflexivity. }
    eapply rtc_l.
    { apply (Concurrent.cstep_lock _ _ _ _ 1%nat "down" (Some lora_frame)); reflexivity. }
    eapply rtc_l.
    { apply (Concurrent.cstep_marshal _ _ _ _ 1%nat "down" (Some lora_frame)
               ([x01; x02] ++ be32 125)); reflexivity. }
    eapply rtc_l.
    { apply (Concurrent.cstep_send _ _ _ _ 1%nat msg). reflexivity. }
    apply rtc_refl.
  - reflexivity.
Defined.

(** * The further properties on sample inputs *)

(** X1 at work: the event socket cannot be dialled. *)
Lemma NewBackend_connection_error_witness :
  exists w',
    Sample.NewBackend conf (mkSetup (Some "connection refused"%string) None None (answers []))
      (a_world true 0) =
      Ret (Some (errors_Wrap "connection refused" "dial event api url error")) w' /\
    sent (commandSock (backend w')) = [] /\
    hist (subscribeEventChan (backend w')) = [] /\
    heap w' = heap (a_world true 0).
Proof.
  apply (NewBackend_connection_error Marshal conf
           (mkSetup (Some "connection refused"%string) None None (answers []))
           (a_world true 0) "connection refused" "dial event api url error").
  left. split; reflexivity.
Defined.

(** X3 at work. *)
Lemma NewBackend_ready_witness :
  let w := a_world true 125 in
  let w' := world_of (Sample.NewBackend conf (dials [[x01; x02; x03; x04; x05; x06; x07; x08]]) w) in
  crcCheck (backend w') = false /\
  commandMux (backend w') = false /\
  subscriptions (eventSock (backend w')) = [""%string] /\
  heap w' = heap w.
Proof.
  intros w w'.
  assert (H : Sample.NewBackend conf
                (dials [[x01; x02; x03; x04; x05; x06; x07; x08]]) w = Ret None w')
    by (vm_compute; reflexivity).
  destruct (NewBackend_ready Marshal conf
              (dials [[x01; x02; x03; x04; x05; x06; x07; x08]]) w w' H)
    as (H1 & H2 & H3 & _ & _ & _ & _ & _ & H9).
  split; [exact H1|]. split; [exact H2|]. split; [now rewrite H3|exact H9].
Defined.

(** X4 at work: the acknowledgement is on the channel. *)
Lemma SendDownlinkFrame_acknowledged_witness :
  let w := a_world false 125 in
  let o := Sample.SendDownlinkFrame (answers [[x00]]) lora_frame w in
  returned o = Some None /\
  downlinkTXAckChan (backend (world_of o)) =
    chan_put (DownlinkTXAck.mk [] 0 "" []) (make_chan 1) /\
  commandMux (backend (world_of o)) = false.
Proof.
  assert (Hlen : length (Msg_Bytes [[x00]]) <> 0%nat) by discriminate.
  exact (SendDownlinkFrame_acknowledged Marshal Unmarshal_DownlinkTXAck
           (answers [[x00]]) lora_frame (a_world false 125)
           ([x01; x02] ++ be32 125000) [[x00]] (DownlinkTXAck.mk [] 0 "" [])
           eq_refl eq_refl eq_refl eq_refl Hlen eq_refl).
Defined.

(** X5 at work: the reply is not an acknowledgement. *)
Lemma SendDownlinkFrame_decode_error_witness :
  let w := a_world false 125 in
  Sample.SendDownlinkFrame (answers [[x01]]) lora_frame w =
    Ret (Some (errors_Wrap "proto: cannot parse" "protobuf unmarshal error"))
        (wrote [bytes_of_string "down"; [x01; x02] ++ be32 125000]
               (at_request lora_frame w)).
Proof.
  assert (Hlen : length (Msg_Bytes [[x01]]) <> 0%nat) by discriminate.
  exact (SendDownlinkFrame_decode_error Marshal Unmarshal_DownlinkTXAck
           (answers [[x01]]) lora_frame (a_world false 125)
           ([x01; x02] ++ be32 125000) [[x01]] "proto: cannot parse"
           eq_refl eq_refl eq_refl eq_refl Hlen eq_refl).
Defined.

(** X7 at work: an FSK downlink. *)
Lemma SendDownlinkFrame_without_lora_witness :
  heap (world_of (Sample.SendDownlinkFrame (answers [[x00]]) fsk_frame (a_world false 125)))
  = lora_heap 125.
Proof.
  apply (SendDownlinkFrame_without_lora Marshal Unmarshal_DownlinkTXAck
           (answers [[x00]]) fsk_frame (a_world false 125)).
  right. eexists. split; [reflexivity|]. right. left. eexists. reflexivity.
Defined.

(** X8 at work: 125 sent twice is 125000000 in the caller's object. *)
Lemma SendDownlinkFrame_twice_witness :
  let w1 := world_of (Sample.SendDownlinkFrame (answers [[x00]]) lora_frame
                        (a_world false 125)) in
  let w2 := world_of (Sample.SendDownlinkFrame (answers []) lora_frame w1) in
  heap w2 !! 1%positive = Some (LoRaModulationInfo.mk 125000000 7 "4/5" true).
Proof.
  exact (SendDownlinkFrame_twice Marshal Unmarshal_DownlinkTXAck
           (answers [[x00]]) (answers []) lora_frame (a_world false 125) 1%positive
           (LoRaModulationInfo.mk 125 7 "4/5" true) eq_refl eq_refl).
Defined.

(** X11 at work: CRC checking on, a frame with a good CRC. *)
Lemma eventLoop_delivers_uplink_witness :
  let up := RecvMsg [bytes_of_string "up"; x02 :: be32 125000] in
  let w := a_world true 0 in
  exists w',
    Sample.eventLoop_body up w = Ret tt w' /\
    length (buf (uplinkFrameChan (backend w'))) = 1%nat /\
    Sample.eventLoop [up; RecvError "closed"] w = Sample.eventLoop [RecvError "closed"] w'.
Proof.
  intros up w.
  destruct (eventLoop_delivers_uplink Unmarshal_UplinkFrame Unmarshal_GatewayStats
              (x02 :: be32 125000) _ w [RecvError "closed"] eq_refl eq_refl)
    as (w' & H1 & H2 & H3).
  exists w'. split; [exact H1|]. split; [now rewrite H2|exact H3].
Defined.

(** X12 at work. *)
Lemma eventLoop_delivers_stats_witness :
  let stats := RecvMsg [bytes_of_string "stats"; [x07]] in
  let w := a_world true 0 in
  exists w',
    Sample.eventLoop_body stats w = Ret tt w' /\
    hist (gatewayStatsChan (backend w')) = [GatewayStats.mk [] "" "" 0 0 0 0 [x07]] /\
    Sample.eventLoop [stats] w = Sample.eventLoop [] w'.
Proof.
  intros stats w.
  destruct (eventLoop_delivers_stats Unmarshal_UplinkFrame Unmarshal_GatewayStats
              [x07] _ w [] eq_refl)
    as (w' & H1 & H2 & H3).
  exists w'. split; [exact H1|]. split; [now rewrite H2|exact H3].
Defined.

(** X13 at work: no frame, an unknown topic, an uplink that does not
    decode. *)
Lemma eventLoop_skips_all_malformed_witness :
  let msgs := [[]; [bytes_of_string "ack"; [x01]]; [bytes_of_string "up"; [x00]]] in
  let w := a_world true 0 in
  exists w',
    backend w' = backend w /\ heap w' = heap w /\
    Sample.eventLoop (map RecvMsg msgs ++ []) w = Sample.eventLoop [] w'.
Proof.
  intros msgs w.
  apply (eventLoop_skips_all_malformed Unmarshal_UplinkFrame Unmarshal_GatewayStats
           msgs [] w).
  constructor; [apply malformed_count; discriminate|].
  constructor; [apply malformed_topic; discriminate|].
  constructor; [|constructor].
  apply (malformed_up _ _ [x00] "proto: cannot parse"). reflexivity.
Defined.

(** X14 at work. *)
Lemma eventLoop_receive_error_exits_witness :
  let w := a_world true 0 in
  let o := Sample.eventLoop (map RecvMsg [[]] ++
                            [RecvError "closed";
                             RecvMsg [bytes_of_string "stats"; [x07]]]) w in
  exits o = true /\
  backend (world_of o) = backend w /\
  last (logs (world_of o)) =
    Some (mkLogEntry FatalLevel (Some "closed"%string) []
            "backend/concentratord: receive event message error").
Proof.
  apply (eventLoop_receive_error_exits Unmarshal_UplinkFrame Unmarshal_GatewayStats
           [[]] "closed" [RecvMsg [bytes_of_string "stats"; [x07]]] (a_world true 0)).
  constructor; [apply malformed_count; discriminate|constructor].
Defined.

(** X18 at work: a reply of three bytes. *)
Lemma getGatewayID_identifier_witness :
  let x := answers [[x01; x02; x03]] in
  let w := a_world true 0 in
  returned (getGatewayID Marshal x w) =
    Some ([x01; x02; x03; x00; x00; x00; x00; x00], None) /\
  length [x01; x02; x03; x00; x00; x00; x00; x00] = 8%nat.
Proof.
  intros x w. split; [reflexivity|].
  assert (H : getGatewayID Marshal x w =
              Ret ([x01; x02; x03; x00; x00; x00; x00; x00], None)
                  (world_of (getGatewayID Marshal x w)))
    by (vm_compute; reflexivity).
  exact (proj1 (getGatewayID_identifier Marshal x w _ _ _ H)).
Defined.

(** X19 at work: an FSK uplink is forwarded as decoded. *)
Lemma handleUplinkFrame_without_lora_witness :
  let w := a_world false 0 in
  exists pl w',
    Unmarshal_UplinkFrame_fsk [x02] = Ok pl /\
    handleUplinkFrame_fsk [x02] w = Ret None w' /\
    uplinkFrameChan (backend w') = chan_put pl (make_chan 1).
Proof.
  intros w.
  destruct (handleUplinkFrame_without_lora Unmarshal_UplinkFrame_fsk [x02] w _
              eq_refl eq_refl eq_refl eq_refl)
    as (w' & H1 & H2).
  eexists. exists w'. split; [reflexivity|]. split; [exact H1|exact H2].
Defined.

(** X20 at work: 125500 is delivered as 125. *)
Lemma uplink_bandwidth_truncates_witness :
  let m := LoRaModulationInfo.mk 125500 7 "4/5" false in
  let pl := UplinkFrame.mk []
              (Some (UplinkTXInfo.mk 868100000 0
                       (Some (UplinkTXInfo.LoraModulationInfo (Some m))))) None in
  exists m',
    UplinkTXInfo.GetLoraModulationInfo (UplinkFrame.GetTxInfo (delivered pl)) = Some m' /\
    1000 * LoRaModulationInfo.Bandwidth m' <= 125500
      < 1000 * LoRaModulationInfo.Bandwidth m' + 1000 /\
    (125500 < 1000 -> LoRaModulationInfo.Bandwidth m' = 0) /\
    (uint32_mul (LoRaModulationInfo.Bandwidth m') 1000 = 125500 <-> (1000 | 125500)).
Proof.
  intros m pl.
  assert (Hu : is_uint32 (LoRaModulationInfo.Bandwidth m))
    by (split; [discriminate|reflexivity]).
  exact (uplink_bandwidth_truncates pl m eq_refl Hu).
Defined.

(** X21 at work: CRC checking on, a good CRC. *)
Lemma handleUplinkFrame_crc_checked_witness :
  let w := a_world true 0 in
  exists w',
    Sample.handleUplinkFrame (x02 :: be32 125000) w = Ret None w' /\
    length (buf (uplinkFrameChan (backend w'))) = 1%nat.
Proof.
  intros w.
  destruct (handleUplinkFrame_crc_checked Unmarshal_UplinkFrame
              (x02 :: be32 125000) w _ eq_refl eq_refl)
    as (H1 & _).
  destruct (H1 eq_refl) as (w' & Hw' & Hc).
  exists w'. split; [exact Hw'|]. now rewrite Hc.
Defined.

(** X22 at work: a backend is made and a downlink acknowledged. *)
Lemma channels_hold_at_most_one_witness :
  let io := dials [[x01; x02; x03; x04; x05; x06; x07; x08]] in
  exists p,
    Sample.lives conf io (a_world true 125) p /\
    length (hist (downlinkTXAckChan (backend (world p)))) = 1%nat /\
    (length (buf (downlinkTXAckChan (backend (world p)))) <= 1)%nat /\
    (length (buf (subscribeEventChan (backend (world p)))) <= 1)%nat.
Proof.
  intros io.
  assert (H : exists p,
            Sample.lives conf io (a_world true 125) p /\
            length (hist (downlinkTXAckChan (backend (world p)))) = 1%nat).
  { eexists. split.
    - eexists. split; [vm_compute; reflexivity|].
      eapply rtc_l; [|apply rtc_refl].
      eapply (step_return _ _ _ _
                (CallSendDownlinkFrame (answers [[x00]]) lora_frame)).
      vm_compute; reflexivity.
    - reflexivity. }
  destruct H as (p & Hlives & Hhist).
  exists p. split; [exact Hlives|]. split; [exact Hhist|].
  destruct (channels_hold_at_most_one Marshal Unmarshal_DownlinkTXAck
              Unmarshal_UplinkFrame Unmarshal_GatewayStats conf io
              (a_world true 125) p Hlives)
    as (H1 & _ & _ & H4 & _).
  split; [exact H1|exact H4].
Defined.

(** X23 at work: a goroutine has taken the mutex and is about to encode. *)
Lemma commandMux_held_by_a_goroutine_witness :
  exists c,
    rtc (Concurrent.cstep Marshal)
        (Concurrent.mkConf (mkWorld (fresh_backend false) (lora_heap 125) []) ∅ []) c /\
    commandMux (backend (Concurrent.shared c)) = true /\
    exists t p, Concurrent.threads c !! t = Some p /\ Concurrent.holds_lock p = true.
Proof.
  cut (exists c,
         rtc (Concurrent.cstep Marshal)
             (Concurrent.mkConf (mkWorld (fresh_backend false) (lora_heap 125) []) ∅ []) c /\
         commandMux (backend (Concurrent.shared c)) = true).
  { intros (c & Hrun & Hm). exists c. split; [exact Hrun|]. split; [exact Hm|].
    exact (proj1 (commandMux_held_by_a_goroutine Marshal
                    (mkWorld (fresh_backend false) (lora_heap 125) []) c eq_refl Hrun) Hm). }
  eexists. split.
  - eapply rtc_l.
    { apply (Concurrent.cstep_call _ _ _ _ 0%nat "down" (Some lora_frame)). reflexivity. }
    eapply rtc_l.
    { apply (Concurrent.cstep_lock _ _ _ _ 0%nat "down" (Some lora_frame)); reflexivity. }
    apply rtc_refl.
  - reflexivity.
Defined.
